(** * The-Web-Project: a shallow embedding of the Hero and Projects components

    The page is a React application made of two components.  [Hero.jsx]
    owns a Three.js scene drawn on a canvas (mount effect, frame loop,
    resize handler, cleanup) and an ambient audio handle with a play/pause
    toggle.  [Projects.jsx] owns a static array of six project records, the
    card grid rendered from it and one scroll-triggered GSAP tween.

    JavaScript values are modelled as the code has them: numbers are IEEE 754
    binary64 values ([spec_float] at precision 53), a nullable reference is
    an [option], a property read or method call on [null] raises a
    [TypeError], and the variables a closure captures are the fields of an
    explicit environment record that every callback receives and returns. *)

From stdpp Require Import base list strings pretty.
From Stdlib Require Import ZArith Lia Ascii.
From Stdlib Require Import Floats.SpecFloat.

Open Scope Z_scope.

(** ** JavaScript numbers *)

Module JsNumber.

Definition prec : Z := 53.
Definition emax : Z := 1024.

(** A JavaScript [Number]. *)
Definition number : Type := spec_float.

(** The number denoted by an integer literal (exact below [2^53]). *)
Definition of_Z (z : Z) : number := binary_normalize prec emax z 0 false.

Definition add (x y : number) : number := SFadd prec emax x y.
Definition sub (x y : number) : number := SFsub prec emax x y.
Definition mul (x y : number) : number := SFmul prec emax x y.
Definition div (x y : number) : number := SFdiv prec emax x y.

(** The decimal literal [m * 10^-e], read as the parser does: the
    binary64 value nearest to it.  Division is correctly rounded and both
    operands are exact, so the quotient is that value. *)
Definition decimal (m : Z) (e : nat) : number :=
  div (of_Z m) (of_Z (10 ^ Z.of_nat e)).

(** [x < y] in the sense of the language: false when either is NaN. *)
Definition ltb (x y : number) : bool := SFltb x y.

(** [Number.isFinite]. *)
Definition is_finite (x : number) : bool :=
  match x with
  | S754_zero _ | S754_finite _ _ _ => true
  | S754_infinity _ | S754_nan => false
  end.

(** [x === 0]: both signed zeros compare equal to [0]. *)
Definition is_zero (x : number) : bool :=
  match x with
  | S754_zero _ => true
  | _ => false
  end.

Definition is_nan (x : number) : bool :=
  match x with S754_nan => true | _ => false end.

Definition is_infinity (x : number) : bool :=
  match x with S754_infinity _ => true | _ => false end.

End JsNumber.

Import JsNumber.

(** ** Completions: a call either returns or throws *)

Inductive JsError : Type :=
  | TypeError (message : string).

Inductive completion (A : Type) : Type :=
  | Normal (value : A)
  | Throw (error : JsError).

Arguments Normal {A} value.
Arguments Throw {A} error.

Definition bind {A B : Type} (c : completion A) (k : A -> completion B)
  : completion B :=
  match c with
  | Normal a => k a
  | Throw e => Throw e
  end.

#[global] Instance completion_ret : MRet completion := @Normal.
#[global] Instance completion_bind : MBind completion :=
  fun A B k c => bind c k.
#[global] Instance completion_fmap : FMap completion :=
  fun A B f c => bind c (fun a => Normal (f a)).

(** Reading a property of, or calling a method on, a nullable reference. *)
Definition deref {A : Type} (what : string) (r : option A) : completion A :=
  match r with
  | Some a => Normal a
  | None => Throw (TypeError ("Cannot read properties of null: " +:+ what))
  end.

(** [!r] for a reference that is either an object or [null]. *)
Definition falsy {A : Type} (r : option A) : bool :=
  match r with Some _ => false | None => true end.

(** ** Hero.jsx *)

Module Hero.

(** *** Objects *)

(** The [<canvas>] element, as far as the component reads it. *)
Record Canvas : Type := mkCanvas {
  clientWidth : number;
  clientHeight : number
}.

(** [THREE.PerspectiveCamera]: the constructor stores its four arguments
    and computes the projection matrix; [projection_aspect] is the aspect
    that matrix was last computed from. *)
Record PerspectiveCamera : Type := mkCamera {
  fov : number;
  aspect : number;
  near : number;
  far : number;
  position_z : number;
  projection_aspect : number
}.

Definition new_PerspectiveCamera (f a n fr : number) : PerspectiveCamera :=
  {| fov := f; aspect := a; near := n; far := fr;
     position_z := of_Z 0; projection_aspect := a |}.

Definition updateProjectionMatrix (c : PerspectiveCamera)
  : PerspectiveCamera :=
  {| fov := fov c; aspect := aspect c; near := near c; far := far c;
     position_z := position_z c; projection_aspect := aspect c |}.

(** [THREE.WebGLRenderer]: its options, its output size, the number of
    frames it has drawn and whether its context has been released. *)
Record WebGLRenderer : Type := mkRenderer {
  alpha : bool;
  antialias : bool;
  size : option (number * number);
  frames_drawn : nat;
  context_lost : bool
}.

Definition new_WebGLRenderer (a aa : bool) : WebGLRenderer :=
  {| alpha := a; antialias := aa; size := None;
     frames_drawn := 0%nat; context_lost := false |}.

Definition setSize (w h : number) (r : WebGLRenderer) : WebGLRenderer :=
  {| alpha := alpha r; antialias := antialias r; size := Some (w, h);
     frames_drawn := frames_drawn r; context_lost := context_lost r |}.

Definition render (r : WebGLRenderer) : WebGLRenderer :=
  {| alpha := alpha r; antialias := antialias r; size := size r;
     frames_drawn := S (frames_drawn r); context_lost := context_lost r |}.

Definition forceContextLoss (r : WebGLRenderer) : WebGLRenderer :=
  {| alpha := alpha r; antialias := antialias r; size := size r;
     frames_drawn := frames_drawn r; context_lost := true |}.

Record TorusKnotGeometry : Type := mkGeometry {
  radius : number;
  tube : number;
  tubularSegments : Z;
  radialSegments : Z
}.

Record Mesh : Type := mkMesh {
  geometry : TorusKnotGeometry;
  flatShading : bool;
  rotation_x : number;
  rotation_y : number
}.

Definition new_Mesh (g : TorusKnotGeometry) (flat : bool) : Mesh :=
  {| geometry := g; flatShading := flat;
     rotation_x := of_Z 0; rotation_y := of_Z 0 |}.

(** The objects a scene can hold; the component adds only its mesh. *)
Inductive Object3D : Type :=
  | TheMesh.

(** The callbacks the component hands to the browser. *)
Inductive Callback : Type :=
  | Animate
  | OnResize.

(** The part of [window] the component touches. *)
Record Window : Type := mkWindow {
  frame_requests : list Callback;
  resize_listeners : list Callback
}.

Definition requestAnimationFrame (cb : Callback) (w : Window) : Window :=
  {| frame_requests := frame_requests w ++ [cb];
     resize_listeners := resize_listeners w |}.

Definition callback_eqb (a b : Callback) : bool :=
  match a, b with
  | Animate, Animate | OnResize, OnResize => true
  | _, _ => false
  end.

Definition addEventListener (cb : Callback) (w : Window) : Window :=
  {| frame_requests := frame_requests w;
     resize_listeners :=
       if existsb (callback_eqb cb) (resize_listeners w)
       then resize_listeners w
       else resize_listeners w ++ [cb] |}.

Definition removeEventListener (cb : Callback) (w : Window) : Window :=
  {| frame_requests := frame_requests w;
     resize_listeners :=
       filter (fun l => callback_eqb cb l = false) (resize_listeners w) |}.

(** The variables of the scene effect that its closures ([animate],
    [onResize] and the cleanup) capture. *)
Record SceneEnv : Type := mkSceneEnv {
  scene : list Object3D;
  camera : PerspectiveCamera;
  renderer : WebGLRenderer;
  mesh : Mesh;
  mounted : bool
}.

(** *** The frame loop (lines 31-37) *)

Definition rotate (m : Mesh) : Mesh :=
  {| geometry := geometry m; flatShading := flatShading m;
     rotation_x := add (rotation_x m) (decimal 6 3);
     rotation_y := add (rotation_y m) (decimal 1 2) |}.

Definition animate (st : SceneEnv * Window) : SceneEnv * Window :=
  let (env, win) := st in
  if negb (mounted env) then (env, win)
  else
    let env' :=
      {| scene := scene env; camera := camera env;
         renderer := render (renderer env);
         mesh := rotate (mesh env); mounted := mounted env |} in
    (env', requestAnimationFrame Animate win).

(** *** The resize handler (lines 41-45) *)

Definition onResize (canvas : Canvas) (env : SceneEnv) : SceneEnv :=
  let renderer' :=
    setSize (clientWidth canvas) (clientHeight canvas) (renderer env) in
  let camera0 := camera env in
  let camera1 :=
    {| fov := fov camera0;
       aspect := div (clientWidth canvas) (clientHeight canvas);
       near := near camera0; far := far camera0;
       position_z := position_z camera0;
       projection_aspect := projection_aspect camera0 |} in
  {| scene := scene env; camera := updateProjectionMatrix camera1;
     renderer := renderer'; mesh := mesh env; mounted := mounted env |}.

(** *** The cleanup the effect returns (lines 48-53)

    [dispose] and [forceContextLoss] are methods of every renderer, so the
    guard in front of the call holds and the context is released. *)

Definition cleanup (st : SceneEnv * Window) : SceneEnv * Window :=
  let (env, win) := st in
  ({| scene := scene env; camera := camera env;
      renderer := forceContextLoss (renderer env);
      mesh := mesh env; mounted := false |},
   removeEventListener OnResize win).

(** *** The scene effect (lines 11-55)

    The result is the environment whose cleanup the effect returned, or
    [None] when it returned early, together with the window. *)

Definition scene_effect (canvasRef_current : option Canvas) (win : Window)
  : completion (option SceneEnv * Window) :=
  let canvas := canvasRef_current in
  if falsy canvas then Normal (None, win)
  else
    w ← deref "clientWidth" (clientWidth <$> canvas);
    h ← deref "clientHeight" (clientHeight <$> canvas);
    let camera0 :=
      new_PerspectiveCamera (of_Z 50) (div w h) (decimal 1 1) (of_Z 1000) in
    let camera1 :=
      {| fov := fov camera0; aspect := aspect camera0;
         near := near camera0; far := far camera0;
         position_z := of_Z 5;
         projection_aspect := projection_aspect camera0 |} in
    let renderer0 := new_WebGLRenderer true true in
    w' ← deref "clientWidth" (clientWidth <$> canvas);
    h' ← deref "clientHeight" (clientHeight <$> canvas);
    let renderer1 := setSize w' h' renderer0 in
    let geometry0 :=
      {| radius := decimal 16 1; tube := decimal 4 1;
         tubularSegments := 128; radialSegments := 32 |} in
    let mesh0 := new_Mesh geometry0 true in
    let env0 :=
      {| scene := [TheMesh]; camera := camera1; renderer := renderer1;
         mesh := mesh0; mounted := true |} in
    let (env1, win1) := animate (env0, win) in
    let win2 := addEventListener OnResize win1 in
    Normal (Some env1, win2).

(** *** The ambient audio handle (lines 57-64)

    [Howl] is the handle Howler returns.  The constructor starts fetching
    the asset and returns at once; whether the fetch succeeds is decided
    later by the host and recorded in [load_state], which the component
    never reads.  [play] starts the sound when the asset is there and starts
    nothing on a handle whose asset is not; what Howler does with such a
    request if a pending load completes later is left out. *)

Inductive LoadState : Type :=
  | AssetLoading
  | AssetLoaded
  | AssetFailed.

Record Howl : Type := mkHowl {
  src : list string;
  loop : bool;
  volume : number;
  load_state : LoadState;
  sounding : bool
}.

Definition new_Howl (s : list string) (l : bool) (v : number) : Howl :=
  {| src := s; loop := l; volume := v;
     load_state := AssetLoading; sounding := false |}.

Definition play (h : Howl) : Howl :=
  {| src := src h; loop := loop h; volume := volume h;
     load_state := load_state h;
     sounding :=
       match load_state h with
       | AssetLoaded => true
       | AssetLoading | AssetFailed => sounding h
       end |}.

Definition pause (h : Howl) : Howl :=
  {| src := src h; loop := loop h; volume := volume h;
     load_state := load_state h; sounding := false |}.

Definition settle (outcome : LoadState) (h : Howl) : Howl :=
  {| src := src h; loop := loop h; volume := volume h;
     load_state := outcome; sounding := sounding h |}.

(** The component's own state: the [playing] state variable and the
    [audioRef] reference. *)
Record HeroState : Type := mkHeroState {
  playing : bool;
  audioRef_current : option Howl
}.

(** [useState(false)], [useRef(null)]. *)
Definition initial_state : HeroState :=
  {| playing := false; audioRef_current := None |}.

Definition audio_effect (st : HeroState) : HeroState :=
  {| playing := playing st;
     audioRef_current :=
       Some (new_Howl ["/assets/ambient-loop.mp3"] true (decimal 6 1)) |}.

(** *** The toggle (lines 66-71)

    [playing_seen] is the value of [playing] in the render whose closure is
    called; [setPlaying] is given an updater, which React applies to the
    current state. *)

Definition toggleAudio (playing_seen : bool) (st : HeroState)
  : completion HeroState :=
  if falsy (audioRef_current st) then Normal st
  else
    h ← (if playing_seen
         then pause <$> deref "pause" (audioRef_current st)
         else play <$> deref "play" (audioRef_current st));
    Normal {| playing := negb (playing st); audioRef_current := Some h |}.

(** *** The button (lines 112-119) *)

Record Button : Type := mkButton {
  label : string;
  aria_pressed : bool;
  onClick : HeroState -> completion HeroState
}.

Definition render_button (st : HeroState) : Button :=
  {| label := if playing st then "Pause audio" else "Play audio";
     aria_pressed := playing st;
     onClick := toggleAudio (playing st) |}.

(** *** The page as the browser drives it *)

Record Page : Type := mkPage {
  canvasRef_current : option Canvas;
  scene_env : option SceneEnv;
  cleanup_pending : bool;
  window : Window;
  hero : HeroState
}.

Definition empty_window : Window :=
  {| frame_requests := []; resize_listeners := [] |}.

(** Mounting runs the two effects in source order. *)
Definition mount (canvas : option Canvas) : completion Page :=
  r ← scene_effect canvas empty_window;
  Normal {| canvasRef_current := canvas;
            scene_env := r.1;
            cleanup_pending := bool_decide (is_Some r.1);
            window := r.2;
            hero := audio_effect initial_state |}.

Inductive Event : Type :=
  | AnimationFrame
  | WindowResize
  | Layout (w h : number)
  | Click
  | AssetSettled (outcome : LoadState)
  | Unmount.

Definition with_scene (env : SceneEnv) (win : Window) (p : Page) : Page :=
  {| canvasRef_current := canvasRef_current p; scene_env := Some env;
     cleanup_pending := cleanup_pending p; window := win; hero := hero p |}.

(** Calling one of the effect's closures: its captured variables are the
    page's scene environment, its [canvas] the element the ref points to. *)
Definition call (cb : Callback) (p : Page) : Page :=
  match scene_env p, cb with
  | Some env, Animate =>
      let (env', win') := animate (env, window p) in with_scene env' win' p
  | Some env, OnResize =>
      match canvasRef_current p with
      | Some canvas => with_scene (onResize canvas env) (window p) p
      | None => p
      end
  | None, _ => p
  end.

Definition take_frame_requests (p : Page) : Page :=
  {| canvasRef_current := canvasRef_current p; scene_env := scene_env p;
     cleanup_pending := cleanup_pending p;
     window := {| frame_requests := [];
                  resize_listeners := resize_listeners (window p) |};
     hero := hero p |}.

Definition step (e : Event) (p : Page) : completion Page :=
  match e with
  | AnimationFrame =>
      Normal (foldl (fun q cb => call cb q) (take_frame_requests p)
                    (frame_requests (window p)))
  | WindowResize =>
      Normal (foldl (fun q cb => call cb q) p (resize_listeners (window p)))
  | Layout w h =>
      Normal {| canvasRef_current :=
                  (fun _ => mkCanvas w h) <$> canvasRef_current p;
                scene_env := scene_env p;
                cleanup_pending := cleanup_pending p;
                window := window p; hero := hero p |}
  | Click =>
      st ← onClick (render_button (hero p)) (hero p);
      Normal {| canvasRef_current := canvasRef_current p;
                scene_env := scene_env p;
                cleanup_pending := cleanup_pending p;
                window := window p; hero := st |}
  | AssetSettled outcome =>
      Normal {| canvasRef_current := canvasRef_current p;
                scene_env := scene_env p;
                cleanup_pending := cleanup_pending p;
                window := window p;
                hero := {| playing := playing (hero p);
                           audioRef_current :=
                             settle outcome <$> audioRef_current (hero p) |} |}
  | Unmount =>
      match scene_env p, cleanup_pending p with
      | Some env, true =>
          let (env', win') := cleanup (env, window p) in
          Normal {| canvasRef_current := canvasRef_current p;
                    scene_env := Some env'; cleanup_pending := false;
                    window := win'; hero := hero p |}
      | _, _ => Normal p
      end
  end.

Fixpoint run (es : list Event) (p : Page) : completion Page :=
  match es with
  | [] => Normal p
  | e :: es' => q ← step e p; run es' q
  end.

(** The environment the effect builds for a canvas, before the first
    frame. *)
Definition fresh_env (c : Canvas) : SceneEnv :=
  {| scene := [TheMesh];
     camera :=
       {| fov := of_Z 50;
          aspect := div (clientWidth c) (clientHeight c);
          near := decimal 1 1; far := of_Z 1000;
          position_z := of_Z 5;
          projection_aspect := div (clientWidth c) (clientHeight c) |};
     renderer :=
       setSize (clientWidth c) (clientHeight c) (new_WebGLRenderer true true);
     mesh :=
       new_Mesh {| radius := decimal 16 1; tube := decimal 4 1;
                   tubularSegments := 128; radialSegments := 32 |} true;
     mounted := true |}.

(** A page whose scene is live: the canvas is there, the effect's
    environment exists and its resize listener is the one registered. *)
Definition live (p : Page) : Prop :=
  is_Some (canvasRef_current p)
  /\ is_Some (scene_env p)
  /\ resize_listeners (window p) = [OnResize]
  /\ cleanup_pending p = true.

(** A page whose scene, if it has one, has been cleaned up. *)
Definition stopped (p : Page) : Prop :=
  forall env, scene_env p = Some env ->
    mounted env = false /\ cleanup_pending p = false.

(** The handle of a page whose asset could not be fetched, and the state
    of such a page before any click. *)
Definition failed_handle : Howl :=
  settle AssetFailed
    (new_Howl ["/assets/ambient-loop.mp3"] true (decimal 6 1)).
Definition failed_state : HeroState :=
  {| playing := false; audioRef_current := Some failed_handle |}.

(** Sample canvases: nothing to draw on, no height, and 800 by 600. *)
Definition zero_canvas : Canvas := mkCanvas (of_Z 0) (of_Z 0).
Definition flat_canvas : Canvas := mkCanvas (of_Z 800) (of_Z 0).
Definition vga_canvas : Canvas := mkCanvas (of_Z 800) (of_Z 600).

(** [n] calls of the frame callback in a row. *)
Fixpoint animate_times (n : nat) (st : SceneEnv * Window)
  : SceneEnv * Window :=
  match n with
  | O => st
  | S k => animate_times k (animate st)
  end.

End Hero.

(** ** Projects.jsx *)

Module Projects.

(** *** The project records (lines 8-13) *)

Record Project : Type := mkProject {
  id : Z;
  title : string;
  description : string;
  date : string
}.

(** [new Array(6).fill(0).map((_, i) => ...)]. *)
Definition PROJECTS : list Project :=
  imap (fun i (_ : Z) =>
          {| id := Z.of_nat i + 1;
             title := "Project " +:+ pretty (Z.of_nat i + 1);
             description :=
               "Short description of the project and its treatment.";
             date := "2024" |})
       (replicate 6 0).

(** *** The rendered tree (lines 34-62) *)

#[local] Set Warnings "-register-all".

Inductive Node : Type :=
  | Element (tag : string) (key : option Z) (className : string)
            (children : list Node)
  | Text (content : string).

Definition card (p : Project) : Node :=
  Element "article" (Some (id p))
    "card rounded-2xl overflow-hidden shadow-sm bg-white hover:shadow-lg transition-transform"
    [ Element "div" None
        "aspect-video bg-gray-100 flex items-center justify-center"
        [ Element "span" None "text-sm text-gray-500"
            [ Text "Placeholder visual" ] ];
      Element "div" None "p-6"
        [ Element "h3" None "font-semibold text-lg" [ Text (title p) ];
          Element "p" None "text-sm mt-2 text-gray-600"
            [ Text (description p) ];
          Element "div" None "mt-4 flex items-center justify-between"
            [ Element "a" None "text-sm underline" [ Text "View project" ];
              Element "span" None "text-xs text-gray-400"
                [ Text (date p) ] ] ] ].

Definition render (projects : list Project) : Node :=
  Element "main" None
    "py-20 px-6 md:px-12 lg:px-24 bg-gradient-to-b from-white to-gray-50"
    [ Element "div" None "max-w-6xl mx-auto"
        [ Element "h2" None "text-3xl md:text-4xl font-bold mb-8"
            [ Text "Selected Projects" ];
          Element "div" None
            "grid grid-cols-1 md:grid-cols-2 lg:grid-cols-3 gap-8"
            (map card projects) ] ].

(** What a rendered card shows of its record. *)
Definition card_record (n : Node) : option Project :=
  match n with
  | Element "article" (Some k) _
      [ _;
        Element _ _ _
          [ Element "h3" _ _ [ Text t ];
            Element "p" _ _ [ Text d ];
            Element _ _ _ [ _; Element "span" _ _ [ Text y ] ] ] ] =>
      Some {| id := k; title := t; description := d; date := y |}
  | _ => None
  end.

(** *** Selecting the cards (line 20-21) *)

(** The descendants of a node, in document order. *)
Fixpoint descendants (n : Node) : list Node :=
  match n with
  | Text _ => []
  | Element _ _ _ cs =>
      (fix go (l : list Node) : list Node :=
         match l with
         | [] => []
         | c :: l' => c :: descendants c ++ go l'
         end) cs
  end.

Definition has_class (cls : string) (n : Node) : bool :=
  match n with
  | Element _ _ cn _ => bool_decide (cls ∈ String.words cn)
  | Text _ => false
  end.

(** [gsap.utils.selector(ref)](sel) for a class selector: the matching
    descendants of [ref.current], none when the ref is empty. *)
Definition selector (ref_current : option Node) (sel : string) : list Node :=
  match ref_current, sel with
  | Some root, String "."%char cls =>
      List.filter (has_class cls) (descendants root)
  | _, _ => []
  end.

(** *** The tween (lines 18-32) *)

Record ScrollTriggerVars : Type := mkScrollTriggerVars {
  trigger : option Node;
  start : string
}.

Record TweenVars : Type := mkTweenVars {
  y : number;
  autoAlpha : number;
  duration : number;
  stagger : number;
  ease : string;
  scrollTrigger : ScrollTriggerVars
}.

(** One call of [gsap.from]. *)
Record Tween : Type := mkTween {
  targets : list Node;
  vars : TweenVars
}.

Record Gsap : Type := mkGsap {
  plugins : list string;
  tweens : list Tween
}.

Definition registerPlugin (name : string) (g : Gsap) : Gsap :=
  {| plugins := if bool_decide (name ∈ plugins g) then plugins g
                else plugins g ++ [name];
     tweens := tweens g |}.

Definition from (ts : list Node) (v : TweenVars) (g : Gsap) : Gsap :=
  {| plugins := plugins g; tweens := tweens g ++ [ {| targets := ts; vars := v |} ] |}.

Definition reveal_effect (ref_current : option Node) (g : Gsap) : Gsap :=
  let q := selector ref_current in
  from (q ".card")
       {| y := of_Z 40;
          autoAlpha := of_Z 0;
          duration := decimal 9 1;
          stagger := decimal 12 2;
          ease := "power3.out";
          scrollTrigger := {| trigger := ref_current; start := "top 80%" |} |}
       g.

(** The first and the last record, written out. *)
Definition first_project : Project :=
  {| id := 1; title := "Project 1";
     description := "Short description of the project and its treatment.";
     date := "2024" |}.
Definition last_project : Project :=
  {| id := 6; title := "Project 6";
     description := "Short description of the project and its treatment.";
     date := "2024" |}.

(** *** The module over its lifetime *)

Record ModuleState : Type := mkModuleState {
  gsap : Gsap;
  projects_array : list Project;
  ref_current : option Node
}.

(** Evaluating the module: the plugin is registered and the array built. *)
Definition module_load : ModuleState :=
  {| gsap := registerPlugin "ScrollTrigger" {| plugins := []; tweens := [] |};
     projects_array := PROJECTS;
     ref_current := None |}.

Inductive Op : Type :=
  | Render
  | MountEffect.

Definition perform (o : Op) (m : ModuleState) : ModuleState :=
  match o with
  | Render =>
      {| gsap := gsap m; projects_array := projects_array m;
         ref_current := Some (render (projects_array m)) |}
  | MountEffect =>
      {| gsap := reveal_effect (ref_current m) (gsap m);
         projects_array := projects_array m;
         ref_current := ref_current m |}
  end.

(** The component mounted: rendered once, then its effect run. *)
Definition mounted_module : ModuleState :=
  perform MountEffect (perform Render module_load).

(** *** The scroll-animation engine

    GSAP is a dependency and not part of the sources; what it does with
    the tween it is handed is taken from the specification. *)

(** Modelled from the spec: the engine itself is missing.  One entrance
    animation of a staggered tween: its target, the offset and opacity it
    starts from, its delay and its length. *)
Record Animation : Type := mkAnimation {
  target : Node;
  from_y : number;
  from_alpha : number;
  delay : number;
  length : number
}.

(** Modelled from the spec: the engine's expansion of a tween is missing.
    A tween over several targets with a numeric [stagger] registers one
    animation per target, in order, the [i]-th delayed by [i * stagger]. *)
Definition animations (t : Tween) : list Animation :=
  imap (fun i el =>
          {| target := el;
             from_y := y (vars t);
             from_alpha := autoAlpha (vars t);
             delay := mul (of_Z (Z.of_nat i)) (stagger (vars t));
             length := duration (vars t) |})
       (targets t).

Definition digit_of (c : ascii) : option Z :=
  let n := Z.of_N (Ascii.N_of_ascii c) in
  if (48 <=? n) && (n <=? 57) then Some (n - 48) else None.

(** Modelled from the spec: the engine's reading of a start position is
    missing.  [N%] for a decimal integer [N]. *)
Fixpoint percent_go (acc : Z) (s : string) : option Z :=
  match s with
  | String "%"%char EmptyString => Some acc
  | String c s' => d ← digit_of c; percent_go (10 * acc + d) s'
  | EmptyString => None
  end.

Definition parse_start (s : string) : option (string * Z) :=
  match String.words s with
  | [edge; pos] =>
      match pos with
      | String "%"%char _ => None
      | _ => n ← percent_go 0 pos; Some (edge, n)
      end
  | _ => None
  end.

(** Modelled from the spec: the engine's trigger test is missing.  A start
    of the form [top N%] fires once the trigger's top edge, [container_top]
    pixels below the top of a viewport [viewport_height] pixels high, is at
    or above the line [N%] down the viewport. *)
Definition triggered (st : ScrollTriggerVars) (container_top viewport_height : Z)
  : bool :=
  match parse_start (start st) with
  | Some ("top"%string, n) => container_top * 100 <=? n * viewport_height
  | _ => false
  end.

End Projects.

(** ** Hero.jsx: the backdrop letters (lines 78-91) *)

Module Backdrop.

(** One [motion.span]: its key, the opacity it starts from, the opacity
    and rotation it animates to, and the delay of its transition.  The
    index is an integer, and so are its remainder and the rotation. *)
Record Letter : Type := mkLetter {
  key : Z;
  initial_opacity : number;
  animate_opacity : number;
  rotate : Z;
  delay : number
}.

(** The element [(_, i) => ...] builds for index [i]; [%] is the
    truncating remainder. *)
Definition letter (i : Z) : Letter :=
  {| key := i;
     initial_opacity := of_Z 0;
     animate_opacity := of_Z 1;
     rotate := Z.rem i 7 * 8;
     delay := mul (of_Z i) (decimal 3 2) |}.

(** [Array.from({ length: 20 }).map((_, i) => ...)]. *)
Definition letters : list Letter :=
  imap (fun i (_ : unit) => letter (Z.of_nat i)) (replicate 20 ()).

End Backdrop.

(** ** Pages with a running and with a halted scene *)

(** A page whose frame loop is running: [n] frames drawn after the one
    drawn at mount, the mesh rotated as often from [m0], one frame request
    pending, the resize listener registered. *)
Definition running_page (c : Hero.Canvas) (cam : Hero.PerspectiveCamera)
    (sz : option (number * number)) (n : nat) (m0 : Hero.Mesh)
    (hr : Hero.HeroState) : Hero.Page :=
  {| Hero.canvasRef_current := Some c;
     Hero.scene_env :=
       Some {| Hero.scene := [Hero.TheMesh];
               Hero.camera := cam;
               Hero.renderer :=
                 {| Hero.alpha := true; Hero.antialias := true;
                    Hero.size := sz; Hero.frames_drawn := S n;
                    Hero.context_lost := false |};
               Hero.mesh := Nat.iter (S n) Hero.rotate m0;
               Hero.mounted := true |};
     Hero.cleanup_pending := true;
     Hero.window := {| Hero.frame_requests := [Hero.Animate];
                       Hero.resize_listeners := [Hero.OnResize] |};
     Hero.hero := hr |}.

(** A page whose scene has been cleaned up: the environment [env] is the
    one the cleanup left, no listener is registered and [pending] frame
    requests are still queued. *)
Definition halted_page (c : option Hero.Canvas) (env : Hero.SceneEnv)
    (pending : list Hero.Callback) (hr : Hero.HeroState) : Hero.Page :=
  {| Hero.canvasRef_current := c;
     Hero.scene_env := Some env;
     Hero.cleanup_pending := false;
     Hero.window := {| Hero.frame_requests := pending;
                       Hero.resize_listeners := [] |};
     Hero.hero := hr |}.

(** The handle of a page whose asset has arrived, and the state of such a
    page before any click. *)
Definition loaded_handle : Hero.Howl :=
  Hero.settle Hero.AssetLoaded
    (Hero.new_Howl ["/assets/ambient-loop.mp3"] true (decimal 6 1)).
Definition loaded_state : Hero.HeroState :=
  {| Hero.playing := false; Hero.audioRef_current := Some loaded_handle |}.

(** ** Counting the events of a history *)

Definition is_frame (e : Hero.Event) : bool :=
  match e with Hero.AnimationFrame => true | _ => false end.

Definition is_resize (e : Hero.Event) : bool :=
  match e with Hero.WindowResize => true | _ => false end.

Definition is_click (e : Hero.Event) : bool :=
  match e with Hero.Click => true | _ => false end.

Definition frames (es : list Hero.Event) : nat :=
  Datatypes.length (List.filter is_frame es).

Definition clicks (es : list Hero.Event) : nat :=
  Datatypes.length (List.filter is_click es).

Definition is_mount_effect (o : Projects.Op) : bool :=
  match o with Projects.MountEffect => true | Projects.Render => false end.

Definition mount_effects (ops : list Projects.Op) : nat :=
  Datatypes.length (List.filter is_mount_effect ops).

(** The options every call of the reveal effect passes to [gsap.from],
    for a given container. *)
Definition reveal_vars (container : option Projects.Node)
  : Projects.TweenVars :=
  {| Projects.y := of_Z 40;
     Projects.autoAlpha := of_Z 0;
     Projects.duration := decimal 9 1;
     Projects.stagger := decimal 12 2;
     Projects.ease := "power3.out";
     Projects.scrollTrigger :=
       {| Projects.trigger := container; Projects.start := "top 80%" |} |}.

(** * Properties *)

Import Hero.

(** ** Numbers *)

(** Dividing by either zero never gives a finite number: the quotient is
    NaN for a zero or NaN dividend and an infinity otherwise. *)
Lemma div_by_zero_not_finite (x z : number) :
  is_zero z = true -> is_finite (div x z) = false.
Proof.
  destruct z; try discriminate; intros _.
  destruct x; reflexivity.
Qed.

Lemma div_by_zero_nan_or_infinity (x z : number) :
  is_zero z = true ->
  is_nan (div x z) = true \/ is_infinity (div x z) = true.
Proof.
  destruct z; try discriminate; intros _.
  destruct x; cbn; auto.
Qed.

(** ** The scene effect *)

Lemma animate_mounted (env : SceneEnv) (win : Window) :
  mounted env = true ->
  animate (env, win) =
    ({| scene := scene env; camera := camera env;
        renderer := render (renderer env);
        mesh := rotate (mesh env); mounted := true |},
     requestAnimationFrame Animate win).
Proof. intros H. unfold animate. rewrite H. reflexivity. Qed.

Lemma animate_unmounted (env : SceneEnv) (win : Window) :
  mounted env = false -> animate (env, win) = (env, win).
Proof. intros H. unfold animate. rewrite H. reflexivity. Qed.

(** With a canvas the effect never returns early and never throws: it
    builds the scene, draws one frame, requests the next and registers the
    resize listener, whatever the canvas measures. *)
Lemma scene_effect_present (c : Canvas) (win : Window) :
  scene_effect (Some c) win =
    Normal (Some (animate (fresh_env c, win)).1,
            addEventListener OnResize (animate (fresh_env c, win)).2).
Proof. reflexivity. Qed.

Lemma mount_present (c : Canvas) :
  mount (Some c) =
    Normal {| canvasRef_current := Some c;
              scene_env := Some (animate (fresh_env c, empty_window)).1;
              cleanup_pending := true;
              window := {| frame_requests := [Animate];
                           resize_listeners := [OnResize] |};
              hero := audio_effect initial_state |}.
Proof. reflexivity. Qed.

(** C7: with no canvas behind the ref the scene effect returns at once:
    nothing is built, no frame is requested, no listener is registered, no
    cleanup is returned and nothing is thrown. *)
Theorem scene_effect_without_canvas (win : Window) :
  scene_effect None win = Normal (None, win)
  /\ exists p, mount None = Normal p
       /\ scene_env p = None
       /\ cleanup_pending p = false
       /\ frame_requests (window p) = []
       /\ resize_listeners (window p) = [].
Proof.
  split; [reflexivity|].
  eexists. split; [reflexivity|]. cbn. auto.
Qed.

(** C1, as the spec words it, fails: mounting on a canvas whose width and
    height are both zero requests an animation frame. *)
Lemma zero_surface_schedules_frame :
  ~ (forall c : Canvas,
       is_zero (clientWidth c) = true -> is_zero (clientHeight c) = true ->
       exists p, mount (Some c) = Normal p
                 /\ frame_requests (window p) = []).
Proof.
  intros H.
  destruct (H zero_canvas eq_refl eq_refl) as (p & Hp & Hq).
  rewrite mount_present in Hp. injection Hp as <-. discriminate Hq.
Qed.

(** C1, amended: mounting on a canvas whose width and height are both zero
    does not throw; the dimensions are not inspected, so the frame callback
    runs once (one frame drawn, the mesh rotated once) and the next frame
    is requested, as for any other canvas. *)
Theorem mount_zero_surface (c : Canvas) :
  is_zero (clientWidth c) = true -> is_zero (clientHeight c) = true ->
  exists p env,
    mount (Some c) = Normal p
    /\ scene_env p = Some env
    /\ frame_requests (window p) = [Animate]
    /\ frames_drawn (renderer env) = 1%nat
    /\ mesh env = rotate (mesh (fresh_env c))
    /\ mounted env = true.
Proof.
  intros _ _. do 2 eexists. rewrite mount_present.
  split; [reflexivity|]. cbn. auto.
Qed.

Lemma mount_zero_surface_witness :
  exists p env,
    mount (Some zero_canvas) = Normal p
    /\ scene_env p = Some env
    /\ frame_requests (window p) = [Animate]
    /\ frames_drawn (renderer env) = 1%nat
    /\ mesh env = rotate (mesh (fresh_env zero_canvas))
    /\ mounted env = true.
Proof.
  apply (mount_zero_surface zero_canvas); reflexivity.
Defined.

(** ** The resize handler *)

Lemma onResize_camera (c : Canvas) (env : SceneEnv) :
  aspect (camera (onResize c env)) = div (clientWidth c) (clientHeight c)
  /\ projection_aspect (camera (onResize c env)) =
       div (clientWidth c) (clientHeight c)
  /\ size (renderer (onResize c env)) =
       Some (clientWidth c, clientHeight c).
Proof. cbn. auto. Qed.

(** C9: the aspect is an unguarded quotient.  For a canvas of height zero
    the effect still returns normally with the camera's aspect set to
    [clientWidth / clientHeight], which is NaN or an infinity, and the
    resize handler assigns the same non-finite quotient. *)
Theorem aspect_division_unguarded (c : Canvas) (win : Window)
    (env0 : SceneEnv) :
  is_zero (clientHeight c) = true ->
  (exists env win',
     scene_effect (Some c) win = Normal (Some env, win')
     /\ aspect (camera env) = div (clientWidth c) (clientHeight c)
     /\ is_finite (aspect (camera env)) = false
     /\ (is_nan (aspect (camera env)) = true
         \/ is_infinity (aspect (camera env)) = true))
  /\ aspect (camera (onResize c env0)) =
       div (clientWidth c) (clientHeight c)
  /\ is_finite (aspect (camera (onResize c env0))) = false
  /\ (is_nan (aspect (camera (onResize c env0))) = true
      \/ is_infinity (aspect (camera (onResize c env0))) = true).
Proof.
  intros Hz. split.
  - do 2 eexists. rewrite scene_effect_present.
    split; [reflexivity|]. cbn [fst animate fresh_env mounted negb camera aspect].
    auto using div_by_zero_not_finite, div_by_zero_nan_or_infinity.
  - destruct (onResize_camera c env0) as (-> & _ & _).
    auto using div_by_zero_not_finite, div_by_zero_nan_or_infinity.
Qed.

Lemma aspect_division_unguarded_witness :
  (exists env win',
     scene_effect (Some flat_canvas) empty_window = Normal (Some env, win')
     /\ aspect (camera env) =
          div (clientWidth flat_canvas) (clientHeight flat_canvas)
     /\ is_finite (aspect (camera env)) = false
     /\ (is_nan (aspect (camera env)) = true
         \/ is_infinity (aspect (camera env)) = true))
  /\ aspect (camera (onResize flat_canvas (fresh_env vga_canvas))) =
       div (clientWidth flat_canvas) (clientHeight flat_canvas)
  /\ is_finite (aspect (camera (onResize flat_canvas (fresh_env vga_canvas))))
     = false
  /\ (is_nan (aspect (camera (onResize flat_canvas (fresh_env vga_canvas))))
      = true
      \/ is_infinity
           (aspect (camera (onResize flat_canvas (fresh_env vga_canvas))))
         = true).
Proof.
  apply (aspect_division_unguarded flat_canvas empty_window
           (fresh_env vga_canvas)).
  reflexivity.
Defined.

(** ** The frame loop after cleanup *)

Lemma cleanup_unmounts (env : SceneEnv) (win : Window) :
  mounted (cleanup (env, win)).1 = false
  /\ mesh (cleanup (env, win)).1 = mesh env
  /\ frame_requests (cleanup (env, win)).2 = frame_requests win.
Proof. cbn. auto. Qed.

Lemma animate_times_unmounted (n : nat) (env : SceneEnv) (win : Window) :
  mounted env = false -> animate_times n (env, win) = (env, win).
Proof.
  intros H. induction n as [|n IH]; [reflexivity|].
  cbn [animate_times]. rewrite animate_unmounted by exact H. exact IH.
Qed.

(** C5: once the cleanup has run, any number of calls of the frame
    callback leaves everything as the cleanup left it: the mesh keeps the
    rotation it had, no frame is drawn and no frame is requested. *)
Theorem no_frame_after_cleanup (n : nat) (env : SceneEnv) (win : Window) :
  animate_times n (cleanup (env, win)) = cleanup (env, win)
  /\ rotation_x (mesh (animate_times n (cleanup (env, win))).1) =
       rotation_x (mesh env)
  /\ rotation_y (mesh (animate_times n (cleanup (env, win))).1) =
       rotation_y (mesh env)
  /\ frame_requests (animate_times n (cleanup (env, win))).2 =
       frame_requests win.
Proof.
  assert (E : animate_times n (cleanup (env, win)) = cleanup (env, win)).
  { destruct (cleanup (env, win)) as [env' win'] eqn:Hc.
    apply animate_times_unmounted.
    pose proof (cleanup_unmounts env win) as (Hm & _). rewrite Hc in Hm.
    exact Hm. }
  rewrite E. split; [reflexivity|]. cbn. auto.
Qed.

(** ** The page under events *)

Lemma toggleAudio_absent (seen : bool) (st : HeroState) :
  audioRef_current st = None -> toggleAudio seen st = Normal st.
Proof. intros H. unfold toggleAudio. rewrite H. reflexivity. Qed.

Lemma toggleAudio_present (seen : bool) (st : HeroState) (h : Howl) :
  audioRef_current st = Some h ->
  toggleAudio seen st =
    Normal {| playing := negb (playing st);
              audioRef_current := Some (if seen then pause h else play h) |}.
Proof.
  intros H. unfold toggleAudio. rewrite H. destruct seen; reflexivity.
Qed.

(** The toggle never throws. *)
Lemma toggleAudio_returns (seen : bool) (st : HeroState) :
  exists st', toggleAudio seen st = Normal st'.
Proof.
  destruct (audioRef_current st) as [h|] eqn:E.
  - eexists. apply (toggleAudio_present seen st h E).
  - eexists. apply (toggleAudio_absent seen st E).
Qed.

(** No event makes the page throw. *)
Lemma step_returns (e : Event) (p : Page) : exists q, step e p = Normal q.
Proof.
  destruct e; cbn [step]; try (eexists; reflexivity).
  - cbn [render_button onClick].
    destruct (toggleAudio_returns (playing (hero p)) (hero p)) as (st & ->).
    eexists. reflexivity.
  - destruct (scene_env p) as [env|]; [|eexists; reflexivity].
    destruct (cleanup_pending p); eexists; reflexivity.
Qed.

Lemma run_returns (es : list Event) (p : Page) :
  exists q, run es p = Normal q.
Proof.
  revert p. induction es as [|e es IH]; intros p; cbn [run].
  - eexists. reflexivity.
  - destruct (step_returns e p) as (q & ->). apply IH.
Qed.

Lemma call_live (cb : Callback) (p : Page) : live p -> live (call cb p).
Proof.
  intros (Hc & He & Hl & Hu). unfold call.
  destruct (scene_env p) as [env|] eqn:E; [|by destruct He].
  destruct cb.
  - unfold animate. destruct (mounted env); cbn; repeat split; eauto.
  - destruct (canvasRef_current p) eqn:C; [|by destruct Hc].
    cbn. repeat split; eauto.
Qed.

Lemma calls_live (cbs : list Callback) (p : Page) :
  live p -> live (foldl (fun q cb => call cb q) p cbs).
Proof.
  revert p. induction cbs as [|cb cbs IH]; intros p H; cbn [foldl]; [done|].
  apply IH, call_live, H.
Qed.

Lemma step_live (e : Event) (p q : Page) :
  e <> Unmount -> live p -> step e p = Normal q -> live q.
Proof.
  intros Hne Hp. destruct e; cbn [step]; try congruence.
  - intros [= <-]. apply calls_live.
    destruct Hp as (Hc & He & Hl & Hu). repeat split; cbn; auto.
  - intros [= <-]. by apply calls_live.
  - intros [= <-]. destruct Hp as ([c Hc] & He & Hl & Hu).
    repeat split; cbn; auto. rewrite Hc. eauto.
  - cbn [render_button onClick].
    destruct (toggleAudio_returns (playing (hero p)) (hero p)) as (st & ->).
    intros [= <-]. exact Hp.
  - intros [= <-]. exact Hp.
Qed.

Lemma run_live (es : list Event) (p q : Page) :
  Unmount ∉ es -> live p -> run es p = Normal q -> live q.
Proof.
  revert p. induction es as [|e es IH]; intros p Hn Hp; cbn [run].
  - intros [= <-]. exact Hp.
  - destruct (step_returns e p) as (p' & Hs). rewrite Hs. cbn.
    apply IH.
    + intros Hin. apply Hn. by right.
    + apply (step_live e p p'); auto. intros ->. apply Hn. by left.
Qed.

Lemma mount_live (c : Canvas) :
  exists p, mount (Some c) = Normal p /\ live p.
Proof.
  eexists. split; [apply mount_present|].
  repeat split; cbn; eauto.
Qed.

Lemma resize_live (p : Page) (c : Canvas) (env : SceneEnv) :
  canvasRef_current p = Some c -> scene_env p = Some env ->
  resize_listeners (window p) = [OnResize] ->
  step WindowResize p = Normal (with_scene (onResize c env) (window p) p).
Proof.
  intros Hc He Hl. cbn [step]. rewrite Hl. cbn [foldl].
  unfold call. rewrite He, Hc. reflexivity.
Qed.

(** C6: every resize event delivered to a mounted page (any events but an
    unmount may have come before) sets the camera's aspect to the quotient
    of the canvas's current width by its current height, recomputes the
    projection from it, and sets the renderer's size to that width and
    height. *)
Theorem resize_updates_aspect (c0 : Canvas) (es : list Event) :
  Unmount ∉ es ->
  exists p c q env,
    mount (Some c0) ≫= run es = Normal p
    /\ canvasRef_current p = Some c
    /\ step WindowResize p = Normal q
    /\ canvasRef_current q = Some c
    /\ scene_env q = Some env
    /\ aspect (camera env) = div (clientWidth c) (clientHeight c)
    /\ projection_aspect (camera env) = div (clientWidth c) (clientHeight c)
    /\ size (renderer env) = Some (clientWidth c, clientHeight c).
Proof.
  intros Hn.
  destruct (mount_live c0) as (p0 & Hm & Hl0).
  destruct (run_returns es p0) as (p & Hr).
  pose proof (run_live es p0 p Hn Hl0 Hr) as ([c Hc] & [env He] & Hl & _).
  exists p, c, (with_scene (onResize c env) (window p) p), (onResize c env).
  split. { rewrite Hm. exact Hr. }
  split; [exact Hc|].
  split; [by apply resize_live|].
  split; [exact Hc|].
  split; [reflexivity|].
  apply onResize_camera.
Qed.

Lemma resize_updates_aspect_witness :
  exists p c q env,
    mount (Some vga_canvas)
      ≫= run [AnimationFrame; Layout (of_Z 1024) (of_Z 768)] = Normal p
    /\ canvasRef_current p = Some c
    /\ step WindowResize p = Normal q
    /\ canvasRef_current q = Some c
    /\ scene_env q = Some env
    /\ aspect (camera env) = div (clientWidth c) (clientHeight c)
    /\ projection_aspect (camera env) = div (clientWidth c) (clientHeight c)
    /\ size (renderer env) = Some (clientWidth c, clientHeight c).
Proof.
  apply (resize_updates_aspect vga_canvas
           [AnimationFrame; Layout (of_Z 1024) (of_Z 768)]).
  intros H. repeat (apply elem_of_cons in H as [H|H]; [discriminate H|]).
  by apply elem_of_nil in H.
Defined.

(** After an unmount the mesh is frozen at page level too: whatever events
    follow, the pending frame request included, the mesh stays as it was
    and the frame queue never grows again. *)
Lemma call_stopped (cb : Callback) (p : Page) :
  stopped p ->
  stopped (call cb p)
  /\ mesh <$> scene_env (call cb p) = mesh <$> scene_env p
  /\ frame_requests (window (call cb p)) = frame_requests (window p).
Proof.
  intros Hs. unfold call.
  destruct (scene_env p) as [env|] eqn:E; [|by rewrite ?E].
  destruct (Hs env E) as (Hm & Hc).
  destruct cb.
  - rewrite animate_unmounted by exact Hm.
    split; [intros ? [= <-]; cbn; auto | cbn; auto].
  - destruct (canvasRef_current p).
    + split; [intros ? [= <-]; cbn; auto | cbn; auto].
    + rewrite E. split; [exact Hs | auto].
Qed.

Lemma calls_stopped (cbs : list Callback) (p : Page) :
  stopped p ->
  stopped (foldl (fun q cb => call cb q) p cbs)
  /\ mesh <$> scene_env (foldl (fun q cb => call cb q) p cbs)
     = mesh <$> scene_env p
  /\ frame_requests (window (foldl (fun q cb => call cb q) p cbs))
     = frame_requests (window p).
Proof.
  revert p. induction cbs as [|cb cbs IH]; intros p H; cbn [foldl]; [done|].
  destruct (call_stopped cb p H) as (H1 & H2 & H3).
  destruct (IH _ H1) as (I1 & I2 & I3).
  split; [exact I1|]. split; congruence.
Qed.

Lemma step_stopped (e : Event) (p q : Page) :
  stopped p -> step e p = Normal q ->
  stopped q
  /\ mesh <$> scene_env q = mesh <$> scene_env p
  /\ (Datatypes.length (frame_requests (window q))
      <= Datatypes.length (frame_requests (window p)))%nat.
Proof.
  intros Hp.
  assert (Hsame : forall q', scene_env q' = scene_env p ->
            cleanup_pending q' = cleanup_pending p ->
            window q' = window p ->
            stopped q'
            /\ mesh <$> scene_env q' = mesh <$> scene_env p
            /\ (Datatypes.length (frame_requests (window q'))
                <= Datatypes.length (frame_requests (window p)))%nat).
  { intros q' Hs Hc Hw. unfold stopped. rewrite Hs, Hc, Hw.
    split; [exact Hp|]. split; [reflexivity|lia]. }
  destruct e; cbn [step].
  - intros [= <-].
    destruct (calls_stopped (frame_requests (window p))
                (take_frame_requests p)) as (H1 & H2 & H3).
    { exact Hp. }
    split; [exact H1|]. split; [exact H2|]. rewrite H3. cbn. lia.
  - intros [= <-].
    destruct (calls_stopped (resize_listeners (window p)) p Hp)
      as (H1 & H2 & H3).
    split; [exact H1|]. split; [exact H2|]. rewrite H3. lia.
  - intros [= <-]. by apply Hsame.
  - cbn [render_button onClick].
    destruct (toggleAudio_returns (playing (hero p)) (hero p)) as (st & ->).
    intros [= <-]. by apply Hsame.
  - intros [= <-]. by apply Hsame.
  - destruct (scene_env p) as [env|] eqn:E.
    + destruct (Hp env E) as (_ & ->). intros [= <-]. by apply Hsame.
    + intros [= <-]. by apply Hsame.
Qed.

Lemma run_stopped (es : list Event) (p q : Page) :
  stopped p -> run es p = Normal q ->
  stopped q
  /\ mesh <$> scene_env q = mesh <$> scene_env p
  /\ (Datatypes.length (frame_requests (window q))
      <= Datatypes.length (frame_requests (window p)))%nat.
Proof.
  revert p. induction es as [|e es IH]; intros p Hp; cbn [run].
  - intros [= <-]. split; [exact Hp|]. split; [reflexivity|lia].
  - destruct (step_returns e p) as (p' & Hs). rewrite Hs. cbn. intros Hr.
    destruct (step_stopped e p p' Hp Hs) as (H1 & H2 & H3).
    destruct (IH p' H1 Hr) as (I1 & I2 & I3).
    split; [exact I1|]. split; [congruence|lia].
Qed.

Lemma unmount_stops (p q : Page) :
  cleanup_pending p = true -> step Unmount p = Normal q ->
  stopped q /\ mesh <$> scene_env q = mesh <$> scene_env p.
Proof.
  intros Hc. cbn [step]. rewrite Hc.
  destruct (scene_env p) as [env|] eqn:E.
  - cbn. intros [= <-]. cbn. split; [|reflexivity]. by intros ? [= <-].
  - intros [= <-]. rewrite E. split; [|reflexivity]. intros ?. by rewrite E.
Qed.

Lemma mesh_frozen_after_unmount (c : Canvas) (before after : list Event) :
  Unmount ∉ before ->
  exists p q r,
    mount (Some c) ≫= run before = Normal p
    /\ step Unmount p = Normal q
    /\ run after q = Normal r
    /\ mesh <$> scene_env r = mesh <$> scene_env p
    /\ (Datatypes.length (frame_requests (window r))
        <= Datatypes.length (frame_requests (window q)))%nat.
Proof.
  intros Hn.
  destruct (mount_live c) as (p0 & Hm & Hl0).
  destruct (run_returns before p0) as (p & Hr).
  destruct (step_returns Unmount p) as (q & Hq).
  destruct (run_returns after q) as (r & Hr').
  pose proof (run_live before p0 p Hn Hl0 Hr) as (_ & _ & _ & Hu).
  destruct (unmount_stops p q Hu Hq) as (Hs & Hmesh).
  destruct (run_stopped after q r Hs Hr') as (_ & Hmesh' & Hlen).
  exists p, q, r. rewrite Hm. repeat split; auto. congruence.
Qed.

(** ** The audio toggle *)

Lemma render_button_matches (st : HeroState) :
  (label (render_button st) = "Pause audio" <-> playing st = true)
  /\ (label (render_button st) = "Play audio" <-> playing st = false)
  /\ aria_pressed (render_button st) = playing st.
Proof.
  unfold render_button; cbn. destruct (playing st); repeat split; congruence.
Qed.

(** The scene's callbacks do not touch the component state. *)
Lemma call_hero (cb : Callback) (p : Page) : hero (call cb p) = hero p.
Proof.
  unfold call. destruct (scene_env p) as [env|]; [|reflexivity].
  destruct cb.
  - destruct (animate (env, window p)). reflexivity.
  - destruct (canvasRef_current p); reflexivity.
Qed.

Lemma calls_hero (cbs : list Callback) (p : Page) :
  hero (foldl (fun q cb => call cb q) p cbs) = hero p.
Proof.
  revert p. induction cbs as [|cb cbs IH]; intros p; cbn [foldl]; [done|].
  rewrite IH. apply call_hero.
Qed.

(** The audio effect always leaves a handle behind, and nothing that
    happens to the page afterwards takes it away, a failed load included. *)
Lemma step_keeps_handle (e : Event) (p q : Page) :
  is_Some (audioRef_current (hero p)) -> step e p = Normal q ->
  is_Some (audioRef_current (hero q)).
Proof.
  intros [h Hh]. destruct e; cbn [step].
  - intros [= <-]. rewrite calls_hero. cbn. eauto.
  - intros [= <-]. rewrite calls_hero. eauto.
  - intros [= <-]. cbn. eauto.
  - cbn [render_button onClick].
    rewrite (toggleAudio_present _ _ h Hh). cbn. intros [= <-]. cbn. eauto.
  - intros [= <-]. cbn. rewrite Hh. cbn. eauto.
  - destruct (scene_env p); [destruct (cleanup_pending p)|];
      intros [= <-]; cbn; eauto.
Qed.

Lemma handle_present_after_mount (c : option Canvas) (es : list Event) :
  exists p, mount c ≫= run es = Normal p
            /\ is_Some (audioRef_current (hero p)).
Proof.
  assert (Hm : exists p0, mount c = Normal p0
                          /\ is_Some (audioRef_current (hero p0))).
  { destruct c as [c|]; eexists; (split; [reflexivity|]); cbn; eauto. }
  destruct Hm as (p0 & -> & H0). cbn.
  revert p0 H0. induction es as [|e es IH]; intros p0 H0; cbn [run].
  - eauto.
  - destruct (step_returns e p0) as (p1 & Hs). rewrite Hs. cbn.
    apply IH. eapply step_keeps_handle; eauto.
Qed.

(** C2, as the spec words it, fails: on a page whose audio asset failed to
    load a click still flips the [playing] state and the label. *)
Lemma failed_asset_click_flips :
  exists p q h,
    mount (Some vga_canvas) ≫= run [AssetSettled AssetFailed] = Normal p
    /\ audioRef_current (hero p) = Some h
    /\ load_state h = AssetFailed
    /\ step Click p = Normal q
    /\ playing (hero p) = false
    /\ playing (hero q) = true
    /\ label (render_button (hero p)) = "Play audio"
    /\ label (render_button (hero q)) = "Pause audio"
    /\ toggleAudio (playing (hero p)) (hero p) <> Normal (hero p).
Proof.
  do 3 eexists.
  split; [reflexivity|]. split; [reflexivity|]. split; [reflexivity|].
  split; [reflexivity|]. repeat (split; [reflexivity|]).
  cbn. discriminate.
Qed.

(** C2, amended: the toggle is an inert no-op exactly when the audio
    handle is absent, which is what its presence check tests.  A failed
    load does not remove the handle: the toggle then still succeeds and
    flips [playing] (and with it the label), while no playback starts. *)
Theorem toggle_noop_iff_handle_absent (seen : bool) (st : HeroState) :
  (toggleAudio seen st = Normal st <-> audioRef_current st = None)
  /\ (forall h, audioRef_current st = Some h -> load_state h = AssetFailed ->
      exists st' h',
        toggleAudio seen st = Normal st'
        /\ playing st' = negb (playing st)
        /\ audioRef_current st' = Some h'
        /\ load_state h' = AssetFailed
        /\ (sounding h' = true -> sounding h = true)).
Proof.
  split.
  - split.
    + destruct (audioRef_current st) as [h|] eqn:E; [|reflexivity].
      rewrite (toggleAudio_present seen st h E). intros [= Heq].
      apply (f_equal playing) in Heq. cbn in Heq.
      destruct (playing st); discriminate.
    + apply toggleAudio_absent.
  - intros h E Hf. rewrite (toggleAudio_present seen st h E).
    do 2 eexists. split; [reflexivity|]. cbn.
    split; [reflexivity|]. split; [reflexivity|].
    destruct seen; cbn; rewrite ?Hf; (split; [reflexivity|]).
    + discriminate.
    + auto.
Qed.

Lemma toggle_noop_iff_handle_absent_witness :
  (toggleAudio false initial_state = Normal initial_state
   <-> audioRef_current initial_state = None)
  /\ exists st' h',
       toggleAudio false failed_state = Normal st'
       /\ playing st' = negb (playing failed_state)
       /\ audioRef_current st' = Some h'
       /\ load_state h' = AssetFailed
       /\ (sounding h' = true -> sounding failed_handle = true).
Proof.
  split.
  - apply (proj1 (toggle_noop_iff_handle_absent false initial_state)).
  - apply (proj2 (toggle_noop_iff_handle_absent false failed_state)
             failed_handle); reflexivity.
Defined.

(** C3: with the handle present two toggles bring [playing] back to where
    it was, whatever render each closure came from, and after each toggle
    the button reads "Pause audio" exactly when [playing] is true, "Play
    audio" exactly when it is false, with [aria-pressed] equal to
    [playing]. *)
Theorem toggle_twice_restores (st : HeroState) (h : Howl)
    (seen1 seen2 : bool) :
  audioRef_current st = Some h ->
  exists st1 st2,
    toggleAudio seen1 st = Normal st1
    /\ toggleAudio seen2 st1 = Normal st2
    /\ playing st1 = negb (playing st)
    /\ playing st2 = playing st
    /\ (label (render_button st1) = "Pause audio" <-> playing st1 = true)
    /\ (label (render_button st1) = "Play audio" <-> playing st1 = false)
    /\ aria_pressed (render_button st1) = playing st1
    /\ (label (render_button st2) = "Pause audio" <-> playing st2 = true)
    /\ (label (render_button st2) = "Play audio" <-> playing st2 = false)
    /\ aria_pressed (render_button st2) = playing st2.
Proof.
  intros E.
  rewrite (toggleAudio_present seen1 st h E).
  eexists. eexists. split; [reflexivity|].
  split; [apply toggleAudio_present; reflexivity|].
  split; [reflexivity|].
  split; [cbn; apply negb_involutive|].
  split; [apply render_button_matches|].
  split; [apply render_button_matches|].
  split; [apply render_button_matches|].
  split; [apply render_button_matches|].
  split; [apply render_button_matches|].
  apply render_button_matches.
Qed.

Lemma toggle_twice_restores_witness :
  exists st1 st2,
    toggleAudio false (audio_effect initial_state) = Normal st1
    /\ toggleAudio true st1 = Normal st2
    /\ playing st1 = negb (playing (audio_effect initial_state))
    /\ playing st2 = playing (audio_effect initial_state)
    /\ (label (render_button st1) = "Pause audio" <-> playing st1 = true)
    /\ (label (render_button st1) = "Play audio" <-> playing st1 = false)
    /\ aria_pressed (render_button st1) = playing st1
    /\ (label (render_button st2) = "Pause audio" <-> playing st2 = true)
    /\ (label (render_button st2) = "Play audio" <-> playing st2 = false)
    /\ aria_pressed (render_button st2) = playing st2.
Proof.
  apply (toggle_twice_restores (audio_effect initial_state)
           (new_Howl ["/assets/ambient-loop.mp3"] true (decimal 6 1))
           false true).
  reflexivity.
Defined.

(** ** The project records *)

Import Projects.

Lemma PROJECTS_ids : id <$> PROJECTS = [1; 2; 3; 4; 5; 6].
Proof. reflexivity. Qed.

Lemma PROJECTS_titles :
  title <$> PROJECTS =
    ["Project 1"; "Project 2"; "Project 3";
     "Project 4"; "Project 5"; "Project 6"].
Proof. vm_compute. reflexivity. Qed.

Lemma ids_NoDup : NoDup (id <$> PROJECTS).
Proof.
  rewrite PROJECTS_ids.
  repeat (apply NoDup_cons; split;
          [rewrite ?elem_of_cons, elem_of_nil; intuition discriminate|]).
  apply NoDup_nil_2.
Qed.

Lemma titles_NoDup : NoDup (title <$> PROJECTS).
Proof.
  rewrite PROJECTS_titles.
  repeat (apply NoDup_cons; split;
          [rewrite ?elem_of_cons, elem_of_nil; intuition discriminate|]).
  apply NoDup_nil_2.
Qed.

Lemma PROJECTS_lookup (i : nat) (p : Project) :
  PROJECTS !! i = Some p ->
  (i < 6)%nat
  /\ id p = Z.of_nat i + 1
  /\ title p = "Project " +:+ pretty (id p)
  /\ description p = "Short description of the project and its treatment."
  /\ date p = "2024".
Proof.
  unfold PROJECTS. intros H.
  apply list_lookup_imap_Some in H as (z & Hz & ->).
  apply lookup_replicate in Hz as (_ & Hi).
  cbn. auto.
Qed.

Lemma render_cards :
  selector (Some (render PROJECTS)) ".card" = card <$> PROJECTS.
Proof. vm_compute. reflexivity. Qed.

Lemma card_record_card (p : Project) : card_record (card p) = Some p.
Proof. destruct p. reflexivity. Qed.

(** C4: the card list shows exactly six records, pairwise distinct, with
    identifiers 1 to 6 in order, the record with identifier [i] titled
    "Project i"; the rendered cards are those six records' cards, in the
    same order. *)
Theorem six_projects_rendered :
  Datatypes.length PROJECTS = 6%nat
  /\ NoDup PROJECTS
  /\ id <$> PROJECTS = [1; 2; 3; 4; 5; 6]
  /\ title <$> PROJECTS =
       ["Project 1"; "Project 2"; "Project 3";
        "Project 4"; "Project 5"; "Project 6"]
  /\ Forall (fun p => 1 <= id p <= 6
                      /\ title p = "Project " +:+ pretty (id p)) PROJECTS
  /\ Forall (fun i => exists p, p ∈ PROJECTS /\ id p = i
                                /\ title p = "Project " +:+ pretty i)
            [1; 2; 3; 4; 5; 6]
  /\ selector (Some (render PROJECTS)) ".card" = card <$> PROJECTS
  /\ Datatypes.length (selector (Some (render PROJECTS)) ".card") = 6%nat
  /\ card_record <$> selector (Some (render PROJECTS)) ".card"
     = Some <$> PROJECTS.
Proof.
  split; [reflexivity|].
  split; [exact (NoDup_fmap_1 id PROJECTS ids_NoDup)|].
  split; [exact PROJECTS_ids|].
  split; [exact PROJECTS_titles|].
  split.
  { apply Forall_lookup_2. intros i p H.
    apply PROJECTS_lookup in H as (Hi & Hid & Ht & _).
    split; [lia | exact Ht]. }
  split.
  { apply Forall_forall. intros i Hi. rewrite <- PROJECTS_ids in Hi.
    apply list_elem_of_fmap in Hi as (p & -> & Hp).
    exists p. split; [exact Hp|]. split; [reflexivity|].
    apply list_elem_of_lookup in Hp as (k & Hk).
    by apply PROJECTS_lookup in Hk as (_ & _ & ? & _). }
  rewrite render_cards.
  split; [reflexivity|].
  split; [reflexivity|].
  rewrite <- list_fmap_compose. apply list_fmap_ext.
  intros i p _. cbn. apply card_record_card.
Qed.

Lemma perform_keeps_array (o : Op) (m : ModuleState) :
  projects_array (perform o m) = projects_array m.
Proof. destruct o; reflexivity. Qed.

Lemma performs_keep_array (ops : list Op) (m : ModuleState) :
  projects_array (foldl (fun s o => perform o s) m ops) = projects_array m.
Proof.
  revert m. induction ops as [|o ops IH]; intros m; cbn [foldl]; [done|].
  rewrite IH. apply perform_keeps_array.
Qed.

(** C10: the array holds six records, and all six carry the same
    description and the same date; two different records differ in
    identifier and in title and in nothing else; and the array the module
    holds is the one built at load, with its six records and their shared
    description and date, however often the component renders or mounts. *)
Theorem records_share_description_and_date :
  Datatypes.length PROJECTS = 6%nat
  /\ description <$> PROJECTS
     = replicate 6 "Short description of the project and its treatment."
  /\ date <$> PROJECTS = replicate 6 "2024"
  /\ PROJECTS !! 0%nat = Some first_project
  /\ PROJECTS !! 5%nat = Some last_project
  /\ Forall (fun p =>
               description p
                 = "Short description of the project and its treatment."
               /\ date p = "2024") PROJECTS
  /\ (forall p q, p ∈ PROJECTS -> q ∈ PROJECTS ->
        description p = description q /\ date p = date q)
  /\ (forall i j p q, PROJECTS !! i = Some p -> PROJECTS !! j = Some q ->
        i <> j -> id p <> id q /\ title p <> title q)
  /\ (forall p q, p ∈ PROJECTS -> q ∈ PROJECTS ->
        id p = id q -> title p = title q -> p = q)
  /\ (forall ops : list Op,
        projects_array (foldl (fun s o => perform o s) module_load ops)
        = PROJECTS
        /\ Datatypes.length
             (projects_array (foldl (fun s o => perform o s) module_load ops))
           = 6%nat
        /\ description
             <$> projects_array
                   (foldl (fun s o => perform o s) module_load ops)
           = replicate 6
               "Short description of the project and its treatment."
        /\ date
             <$> projects_array
                   (foldl (fun s o => perform o s) module_load ops)
           = replicate 6 "2024").
Proof.
  assert (Hall : forall p, p ∈ PROJECTS ->
            description p
              = "Short description of the project and its treatment."
            /\ date p = "2024").
  { intros p Hp. apply list_elem_of_lookup in Hp as (k & Hk).
    apply PROJECTS_lookup in Hk. tauto. }
  split; [reflexivity|].
  split; [reflexivity|].
  split; [reflexivity|].
  split; [reflexivity|].
  split; [reflexivity|].
  split; [by apply Forall_forall|].
  split.
  { intros p q Hp Hq. destruct (Hall p Hp) as (-> & ->).
    destruct (Hall q Hq) as (-> & ->). auto. }
  split.
  { intros i j p q Hi Hj Hne. split; intros Heq; apply Hne.
    - apply (NoDup_lookup (id <$> PROJECTS) i j (id p) ids_NoDup).
      + by rewrite list_lookup_fmap, Hi.
      + by rewrite list_lookup_fmap, Hj, Heq.
    - apply (NoDup_lookup (title <$> PROJECTS) i j (title p) titles_NoDup).
      + by rewrite list_lookup_fmap, Hi.
      + by rewrite list_lookup_fmap, Hj, Heq. }
  split.
  { intros p q Hp Hq Hid Ht.
    destruct (Hall p Hp) as (Hd & Hy). destruct (Hall q Hq) as (Hd' & Hy').
    destruct p, q; cbn in *; congruence. }
  intros ops. rewrite performs_keep_array.
  repeat split; reflexivity.
Qed.

Lemma records_share_description_and_date_witness :
  Datatypes.length PROJECTS = 6%nat
  /\ first_project ∈ PROJECTS
  /\ last_project ∈ PROJECTS
  /\ (description first_project = description last_project
      /\ date first_project = date last_project)
  /\ (id first_project <> id last_project
      /\ title first_project <> title last_project)
  /\ projects_array
       (foldl (fun s o => perform o s) module_load
              [Render; MountEffect; Render])
     = PROJECTS
  /\ Datatypes.length
       (projects_array
          (foldl (fun s o => perform o s) module_load
                 [Render; MountEffect; Render]))
     = 6%nat.
Proof.
  pose proof records_share_description_and_date
    as (Hlen & _ & _ & Hfirst & Hlast & _ & Hsame & Hdiff & _ & Hlife).
  split; [exact Hlen|].
  split; [exact (list_elem_of_lookup_2 PROJECTS 0 first_project Hfirst)|].
  split; [exact (list_elem_of_lookup_2 PROJECTS 5 last_project Hlast)|].
  split.
  { apply Hsame.
    - exact (list_elem_of_lookup_2 PROJECTS 0 first_project Hfirst).
    - exact (list_elem_of_lookup_2 PROJECTS 5 last_project Hlast). }
  split; [apply (Hdiff 0%nat 5%nat); [exact Hfirst | exact Hlast | lia]|].
  destruct (Hlife [Render; MountEffect; Render]) as (H1 & H2 & _).
  split; [exact H1 | exact H2].
Defined.

(** ** The scroll reveal *)

Lemma mounted_tweens :
  tweens (gsap mounted_module) =
    [ {| targets := card <$> PROJECTS;
         vars := {| y := of_Z 40; autoAlpha := of_Z 0;
                    duration := decimal 9 1; stagger := decimal 12 2;
                    ease := "power3.out";
                    scrollTrigger :=
                      {| trigger := Some (render PROJECTS);
                         start := "top 80%" |} |} |} ].
Proof.
  unfold mounted_module, perform, reveal_effect, from.
  cbn [gsap ref_current projects_array module_load tweens registerPlugin app].
  rewrite render_cards. reflexivity.
Qed.

Lemma cards_NoDup : NoDup (card <$> PROJECTS).
Proof.
  apply (NoDup_fmap_1 card_record).
  rewrite <- list_fmap_compose.
  rewrite (list_fmap_ext (card_record ∘ card) Some PROJECTS)
    by (intros; cbn; apply card_record_card).
  apply (NoDup_fmap_2 Some), (NoDup_fmap_1 id), ids_NoDup.
Qed.

Lemma animations_targets (t : Tween) : target <$> animations t = targets t.
Proof.
  apply list_eq. intros i. unfold animations.
  rewrite list_lookup_fmap, list_lookup_imap.
  destruct (targets t !! i); reflexivity.
Qed.

Lemma animations_lookup (t : Tween) (i : nat) (a : Animation) :
  animations t !! i = Some a ->
  targets t !! i = Some (target a)
  /\ from_y a = y (vars t)
  /\ from_alpha a = autoAlpha (vars t)
  /\ delay a = mul (of_Z (Z.of_nat i)) (stagger (vars t))
  /\ length a = duration (vars t).
Proof.
  unfold animations. intros H.
  apply list_lookup_imap_Some in H as (el & Hel & ->). cbn. auto.
Qed.

(** The first six multiples of the stagger, as the engine computes them,
    grow strictly, each exceeding the one before by exactly the stagger. *)
Lemma stagger_steps (i : nat) :
  (i < 5)%nat ->
  ltb (mul (of_Z (Z.of_nat i)) (decimal 12 2))
      (mul (of_Z (Z.of_nat (S i))) (decimal 12 2)) = true
  /\ sub (mul (of_Z (Z.of_nat (S i))) (decimal 12 2))
         (mul (of_Z (Z.of_nat i)) (decimal 12 2)) = decimal 12 2.
Proof.
  intros H.
  do 5 (destruct i as [|i]; [split; vm_compute; reflexivity|]). lia.
Qed.

Lemma triggered_top_80 (st : ScrollTriggerVars) (top vh : Z) :
  start st = "top 80%" ->
  triggered st top vh = true <-> top * 100 <= 80 * vh.
Proof.
  intros H. unfold triggered. rewrite H.
  change (parse_start "top 80%") with (Some ("top"%string, 80)).
  cbn. apply Z.leb_le.
Qed.

(** C8: mounting registers one tween over the rendered cards, which the
    engine plays as one entrance animation per card, in document order:
    each starts 40 pixels down and transparent, the [i]-th delayed by
    [i * 0.12], so that the delays grow strictly by 0.12 from card to
    card; the trigger is the container, firing once its top edge is at or
    above 80% of the viewport height. *)
Theorem one_staggered_animation_per_card :
  exists t,
    tweens (gsap mounted_module) = [t]
    /\ targets t = selector (Some (render PROJECTS)) ".card"
    /\ targets t = card <$> PROJECTS
    /\ NoDup (targets t)
    /\ Datatypes.length (animations t) = 6%nat
    /\ target <$> animations t = targets t
    /\ (forall i a, animations t !! i = Some a ->
          from_y a = of_Z 40 /\ from_alpha a = of_Z 0
          /\ delay a = mul (of_Z (Z.of_nat i)) (decimal 12 2))
    /\ (forall i a b,
          animations t !! i = Some a -> animations t !! S i = Some b ->
          ltb (delay a) (delay b) = true
          /\ sub (delay b) (delay a) = decimal 12 2)
    /\ trigger (scrollTrigger (vars t)) = Some (render PROJECTS)
    /\ (forall top vh,
          triggered (scrollTrigger (vars t)) top vh = true
          <-> top * 100 <= 80 * vh).
Proof.
  eexists. split; [apply mounted_tweens|].
  split; [symmetry; apply render_cards|].
  split; [reflexivity|].
  split; [apply cards_NoDup|].
  split; [reflexivity|].
  split; [apply animations_targets|].
  split.
  { intros i a H. apply animations_lookup in H as (_ & H1 & H2 & H3 & _).
    auto. }
  split.
  { intros i a b Ha Hb.
    assert (Hi : (S i < 6)%nat).
    { apply lookup_lt_Some in Hb. exact Hb. }
    apply animations_lookup in Ha as (_ & _ & _ & -> & _).
    apply animations_lookup in Hb as (_ & _ & _ & -> & _).
    apply stagger_steps. lia. }
  split; [reflexivity|].
  intros top vh. by apply triggered_top_80.
Qed.

(** * Further properties of the components *)

(** ** The frame loop over a page's history *)

Lemma run_snoc (es : list Event) (e : Event) (p : Page) :
  run (es ++ [e]) p = run es p ≫= step e.
Proof.
  revert p. induction es as [|e' es IH]; intros p; cbn [run app].
  - change (Normal p ≫= step e) with (step e p).
    destruct (step_returns e p) as (q & ->). reflexivity.
  - destruct (step_returns e' p) as (q & ->).
    change (Normal q ≫= run (es ++ [e])) with (run (es ++ [e]) q).
    change (Normal q ≫= run es) with (run es q). apply IH.
Qed.

Lemma frames_snoc (es : list Event) (e : Event) :
  frames (es ++ [e]) = (frames es + (if is_frame e then 1 else 0))%nat.
Proof.
  unfold frames. rewrite List.filter_app, List.length_app. cbn.
  destruct (is_frame e); reflexivity.
Qed.

Lemma existsb_snoc {A : Type} (f : A -> bool) (l : list A) (x : A) :
  existsb f (l ++ [x]) = existsb f l || f x.
Proof. rewrite List.existsb_app. cbn. by rewrite orb_false_r. Qed.

(** One event on a page with a running scene. *)
Lemma step_running (e : Event) (c : Canvas) (cam : PerspectiveCamera)
    (sz : option (number * number)) (n : nat) (m0 : Mesh) (hr : HeroState) :
  e <> Unmount ->
  exists c' cam' sz' hr',
    step e (running_page c cam sz n m0 hr) =
      Normal (running_page c' cam' sz'
                (n + (if is_frame e then 1 else 0)) m0 hr')
    /\ (is_resize e = false -> cam' = cam /\ sz' = sz).
Proof.
  intros Hne. destruct e; try congruence; cbn [is_frame is_resize].
  - exists c, cam, sz, hr. rewrite Nat.add_1_r. split; [reflexivity|auto].
  - eexists c, _, _, hr. rewrite Nat.add_0_r.
    split; [reflexivity|discriminate].
  - exists (mkCanvas w h), cam, sz, hr. rewrite Nat.add_0_r.
    split; [reflexivity|auto].
  - destruct (toggleAudio_returns (playing hr) hr) as (st & Hst).
    exists c, cam, sz, st. rewrite Nat.add_0_r. split; [|auto].
    unfold running_page. cbn [step render_button onClick hero].
    rewrite Hst. reflexivity.
  - eexists c, cam, sz, _. rewrite Nat.add_0_r.
    split; [reflexivity|auto].
Qed.

(** What a mounted page looks like after any history without an unmount. *)
Lemma running_history (c0 : Canvas) (es : list Event) :
  Unmount ∉ es ->
  exists c cam sz hr,
    mount (Some c0) ≫= run es =
      Normal (running_page c cam sz (frames es) (mesh (fresh_env c0)) hr)
    /\ (existsb is_resize es = false ->
        cam = camera (fresh_env c0)
        /\ sz = Some (clientWidth c0, clientHeight c0)).
Proof.
  rewrite mount_present. cbn [mbind completion_bind bind].
  induction es as [|e es IH] using rev_ind; intros Hn.
  - do 4 eexists. split; [reflexivity|]. auto.
  - destruct IH as (c & cam & sz & hr & Hr & Hcam).
    { intros Hin. apply Hn, elem_of_app. by left. }
    assert (Hne : e <> Unmount).
    { intros ->. apply Hn, elem_of_app. right. apply list_elem_of_here. }
    destruct (step_running e c cam sz (frames es) (mesh (fresh_env c0)) hr
                Hne) as (c' & cam' & sz' & hr' & Hs & Hkeep).
    exists c', cam', sz', hr'.
    rewrite run_snoc, Hr, frames_snoc, existsb_snoc.
    split; [exact Hs|].
    intros H. apply orb_false_iff in H as (H1 & H2).
    destruct (Hkeep H2) as (-> & ->). auto.
Qed.

(** X1: while the page is mounted the frame loop neither dies nor doubles.
    After any history without an unmount exactly one request for the frame
    callback is pending, the resize listener is the only listener, and the
    renderer has drawn one frame at mount plus one per animation frame. *)
Theorem frame_loop_keeps_one_request (c0 : Canvas) (es : list Event) :
  Unmount ∉ es ->
  exists p env,
    mount (Some c0) ≫= run es = Normal p
    /\ scene_env p = Some env
    /\ mounted env = true
    /\ frame_requests (window p) = [Animate]
    /\ resize_listeners (window p) = [OnResize]
    /\ frames_drawn (renderer env) = S (frames es)
    /\ context_lost (renderer env) = false.
Proof.
  intros Hn.
  destruct (running_history c0 es Hn) as (c & cam & sz & hr & Hr & _).
  do 2 eexists. split; [exact Hr|]. cbn. repeat split; reflexivity.
Qed.

Lemma frame_loop_keeps_one_request_witness :
  exists p env,
    mount (Some vga_canvas)
      ≫= run [AnimationFrame; Click; WindowResize; AnimationFrame]
      = Normal p
    /\ scene_env p = Some env
    /\ mounted env = true
    /\ frame_requests (window p) = [Animate]
    /\ resize_listeners (window p) = [OnResize]
    /\ frames_drawn (renderer env)
       = S (frames [AnimationFrame; Click; WindowResize; AnimationFrame])
    /\ context_lost (renderer env) = false.
Proof.
  apply (frame_loop_keeps_one_request vga_canvas
           [AnimationFrame; Click; WindowResize; AnimationFrame]).
  intros H. repeat (apply elem_of_cons in H as [H|H]; [discriminate H|]).
  by apply elem_of_nil in H.
Defined.

Lemma iter_rotate (n : nat) (m : Mesh) :
  rotation_x (Nat.iter n rotate m)
    = Nat.iter n (fun x => add x (decimal 6 3)) (rotation_x m)
  /\ rotation_y (Nat.iter n rotate m)
     = Nat.iter n (fun x => add x (decimal 1 2)) (rotation_y m)
  /\ geometry (Nat.iter n rotate m) = geometry m
  /\ flatShading (Nat.iter n rotate m) = flatShading m.
Proof.
  induction n as [|n (Hx & Hy & Hg & Hf)]; [by cbn|].
  rewrite !Nat.iter_succ. cbn [rotate rotation_x rotation_y geometry
                               flatShading].
  rewrite Hx, Hy, Hg, Hf. auto.
Qed.

(** X2: the mesh turns by the two fixed steps once per drawn frame and by
    nothing else.  After any history without an unmount its angles are the
    sums, built up frame by frame from zero, of [0.006] and of [0.01], one
    term for the frame drawn at mount and one per animation frame; resizes,
    layout changes and clicks leave them alone, and the geometry stays the
    knot built at mount. *)
Theorem mesh_turns_once_per_frame (c0 : Canvas) (es : list Event) :
  Unmount ∉ es ->
  exists p env,
    mount (Some c0) ≫= run es = Normal p
    /\ scene_env p = Some env
    /\ rotation_x (mesh env)
       = Nat.iter (S (frames es)) (fun x => add x (decimal 6 3)) (of_Z 0)
    /\ rotation_y (mesh env)
       = Nat.iter (S (frames es)) (fun x => add x (decimal 1 2)) (of_Z 0)
    /\ geometry (mesh env) = geometry (mesh (fresh_env c0))
    /\ scene env = [TheMesh].
Proof.
  intros Hn.
  destruct (running_history c0 es Hn) as (c & cam & sz & hr & Hr & _).
  do 2 eexists. split; [exact Hr|]. split; [reflexivity|].
  cbn [running_page scene_env mesh scene].
  destruct (iter_rotate (S (frames es)) (mesh (fresh_env c0)))
    as (Hx & Hy & Hg & _).
  rewrite Hx, Hy, Hg. auto.
Qed.

Lemma mesh_turns_once_per_frame_witness :
  exists p env,
    mount (Some vga_canvas)
      ≫= run [AnimationFrame; Layout (of_Z 1024) (of_Z 768); WindowResize;
              AnimationFrame]
      = Normal p
    /\ scene_env p = Some env
    /\ rotation_x (mesh env)
       = Nat.iter
           (S (frames [AnimationFrame; Layout (of_Z 1024) (of_Z 768);
                       WindowResize; AnimationFrame]))
           (fun x => add x (decimal 6 3)) (of_Z 0)
    /\ rotation_y (mesh env)
       = Nat.iter
           (S (frames [AnimationFrame; Layout (of_Z 1024) (of_Z 768);
                       WindowResize; AnimationFrame]))
           (fun x => add x (decimal 1 2)) (of_Z 0)
    /\ geometry (mesh env) = geometry (mesh (fresh_env vga_canvas))
    /\ scene env = [TheMesh].
Proof.
  apply (mesh_turns_once_per_frame vga_canvas
           [AnimationFrame; Layout (of_Z 1024) (of_Z 768); WindowResize;
            AnimationFrame]).
  intros H. repeat (apply elem_of_cons in H as [H|H]; [discriminate H|]).
  by apply elem_of_nil in H.
Defined.


(** X4: the camera follows the canvas only on resize events.  After any
    history with neither a resize event nor an unmount the camera and the
    renderer's size are still those computed from the canvas as it measured
    at mount, whatever the canvas measures by then. *)
Theorem camera_waits_for_resize (c0 : Canvas) (es : list Event) :
  Unmount ∉ es -> existsb is_resize es = false ->
  exists p env,
    mount (Some c0) ≫= run es = Normal p
    /\ scene_env p = Some env
    /\ camera env = camera (fresh_env c0)
    /\ aspect (camera env) = div (clientWidth c0) (clientHeight c0)
    /\ size (renderer env) = Some (clientWidth c0, clientHeight c0).
Proof.
  intros Hn Hr.
  destruct (running_history c0 es Hn) as (c & cam & sz & hr & Hp & Hk).
  destruct (Hk Hr) as (-> & ->).
  do 2 eexists. split; [exact Hp|]. cbn. auto.
Qed.

Lemma camera_waits_for_resize_witness :
  exists p env,
    mount (Some vga_canvas)
      ≫= run [Layout (of_Z 1024) (of_Z 300); AnimationFrame] = Normal p
    /\ scene_env p = Some env
    /\ camera env = camera (fresh_env vga_canvas)
    /\ aspect (camera env)
       = div (clientWidth vga_canvas) (clientHeight vga_canvas)
    /\ size (renderer env)
       = Some (clientWidth vga_canvas, clientHeight vga_canvas).
Proof.
  apply (camera_waits_for_resize vga_canvas
           [Layout (of_Z 1024) (of_Z 300); AnimationFrame]);
    [|reflexivity].
  intros H. repeat (apply elem_of_cons in H as [H|H]; [discriminate H|]).
  by apply elem_of_nil in H.
Defined.

(** ** The page after an unmount *)

Lemma unmount_running (c : Canvas) (cam : PerspectiveCamera)
    (sz : option (number * number)) (n : nat) (m0 : Mesh) (hr : HeroState) :
  step Unmount (running_page c cam sz n m0 hr) =
    Normal (halted_page (Some c)
              {| scene := [TheMesh]; camera := cam;
                 renderer := {| alpha := true; antialias := true; size := sz;
                                frames_drawn := S n; context_lost := true |};
                 mesh := Nat.iter (S n) rotate m0; mounted := false |}
              [Animate] hr).
Proof. reflexivity. Qed.

(** One event on a page with a halted scene: the scene stays, and an
    animation frame empties the queue of frame requests. *)
Lemma step_halted (e : Event) (c : option Canvas) (env : SceneEnv)
    (pending : list Callback) (hr : HeroState) :
  mounted env = false -> Forall (fun cb => cb = Animate) pending ->
  exists c' hr',
    step e (halted_page c env pending hr) =
      Normal (halted_page c' env (if is_frame e then [] else pending) hr').
Proof.
  intros Hm Hp. destruct e; cbn [is_frame].
  - exists c, hr. cbn [step halted_page window frame_requests]. f_equal.
    unfold take_frame_requests. cbn.
    fold (halted_page c env [] hr).
    induction Hp as [|cb pending -> _ IH]; [reflexivity|].
    cbn [foldl]. unfold call at 2. cbn [halted_page scene_env window].
    rewrite animate_unmounted by exact Hm. exact IH.
  - exists c, hr. reflexivity.
  - eexists _, hr. reflexivity.
  - destruct (toggleAudio_returns (playing hr) hr) as (st & Hst).
    exists c, st. unfold halted_page. cbn [step render_button onClick hero].
    rewrite Hst. reflexivity.
  - eexists c, _. reflexivity.
  - exists c, hr. reflexivity.
Qed.

Lemma run_halted (es : list Event) (c : option Canvas) (env : SceneEnv)
    (pending : list Callback) (hr : HeroState) :
  mounted env = false -> Forall (fun cb => cb = Animate) pending ->
  exists c' hr',
    run es (halted_page c env pending hr) =
      Normal (halted_page c' env
                (if existsb is_frame es then [] else pending) hr').
Proof.
  intros Hm. revert c pending hr.
  induction es as [|e es IH]; intros c pending hr Hp; cbn [run existsb].
  - exists c, hr. reflexivity.
  - destruct (step_halted e c env pending hr Hm Hp) as (c1 & hr1 & ->).
    cbn [mbind completion_bind bind].
    destruct (IH c1 (if is_frame e then [] else pending) hr1)
      as (c2 & hr2 & ->).
    { destruct (is_frame e); [constructor | exact Hp]. }
    exists c2, hr2. destruct (is_frame e); cbn [orb]; [|reflexivity].
    by destruct (existsb is_frame es).
Qed.

(** X5: an unmount stops the scene for good.  Whatever events follow, a
    second unmount included, the scene's environment stays exactly as the
    cleanup left it: flagged unmounted, the context released, camera, mesh
    and frame count as they were at the unmount; and no resize listener is
    registered any more. *)
Theorem scene_frozen_after_unmount (c0 : Canvas)
    (before after : list Event) :
  Unmount ∉ before ->
  exists p q r env0 env,
    mount (Some c0) ≫= run before = Normal p
    /\ scene_env p = Some env0
    /\ step Unmount p = Normal q
    /\ run after q = Normal r
    /\ scene_env q = Some env
    /\ scene_env r = Some env
    /\ mounted env = false
    /\ context_lost (renderer env) = true
    /\ camera env = camera env0
    /\ mesh env = mesh env0
    /\ frames_drawn (renderer env) = S (frames before)
    /\ resize_listeners (window r) = [].
Proof.
  intros Hn.
  destruct (running_history c0 before Hn) as (c & cam & sz & hr & Hp & _).
  pose proof (unmount_running c cam sz (frames before)
                (mesh (fresh_env c0)) hr) as Hq.
  match type of Hq with _ = Normal (halted_page _ ?e _ _) =>
    destruct (run_halted after (Some c) e [Animate] hr eq_refl)
      as (c' & hr' & Hr); [by repeat constructor|]
  end.
  do 5 eexists. split; [exact Hp|]. split; [reflexivity|].
  split; [exact Hq|]. split; [exact Hr|]. cbn. repeat split; reflexivity.
Qed.

Lemma scene_frozen_after_unmount_witness :
  exists p q r env0 env,
    mount (Some vga_canvas) ≫= run [AnimationFrame] = Normal p
    /\ scene_env p = Some env0
    /\ step Unmount p = Normal q
    /\ run [WindowResize; AnimationFrame; Unmount; AnimationFrame] q
       = Normal r
    /\ scene_env q = Some env
    /\ scene_env r = Some env
    /\ mounted env = false
    /\ context_lost (renderer env) = true
    /\ camera env = camera env0
    /\ mesh env = mesh env0
    /\ frames_drawn (renderer env) = S (frames [AnimationFrame])
    /\ resize_listeners (window r) = [].
Proof.
  apply (scene_frozen_after_unmount vga_canvas [AnimationFrame]
           [WindowResize; AnimationFrame; Unmount; AnimationFrame]).
  intros H. repeat (apply elem_of_cons in H as [H|H]; [discriminate H|]).
  by apply elem_of_nil in H.
Defined.

(** X6: the cleanup does not cancel the frame request that is pending at
    the unmount.  The request stays queued until the next animation frame,
    which runs the callback to no effect and leaves the queue empty; from
    then on no frame is ever requested again. *)
Theorem pending_frame_drains_after_unmount (c0 : Canvas)
    (before after : list Event) :
  Unmount ∉ before ->
  exists p q r,
    mount (Some c0) ≫= run before = Normal p
    /\ step Unmount p = Normal q
    /\ run after q = Normal r
    /\ frame_requests (window q) = [Animate]
    /\ frame_requests (window r)
       = (if existsb is_frame after then [] else [Animate])
    /\ scene_env r = scene_env q.
Proof.
  intros Hn.
  destruct (running_history c0 before Hn) as (c & cam & sz & hr & Hp & _).
  pose proof (unmount_running c cam sz (frames before)
                (mesh (fresh_env c0)) hr) as Hq.
  match type of Hq with _ = Normal (halted_page _ ?e _ _) =>
    destruct (run_halted after (Some c) e [Animate] hr eq_refl)
      as (c' & hr' & Hr); [by repeat constructor|]
  end.
  do 3 eexists. split; [exact Hp|]. split; [exact Hq|].
  split; [exact Hr|]. cbn. repeat split; reflexivity.
Qed.

Lemma pending_frame_drains_after_unmount_witness :
  exists p q r,
    mount (Some vga_canvas) ≫= run [AnimationFrame; WindowResize] = Normal p
    /\ step Unmount p = Normal q
    /\ run [Click; AnimationFrame; AnimationFrame] q = Normal r
    /\ frame_requests (window q) = [Animate]
    /\ frame_requests (window r)
       = (if existsb is_frame [Click; AnimationFrame; AnimationFrame]
          then [] else [Animate])
    /\ scene_env r = scene_env q.
Proof.
  apply (pending_frame_drains_after_unmount vga_canvas
           [AnimationFrame; WindowResize]
           [Click; AnimationFrame; AnimationFrame]).
  intros H. repeat (apply elem_of_cons in H as [H|H]; [discriminate H|]).
  by apply elem_of_nil in H.
Defined.

(** ** The page as a whole *)

(** X7: once the page exists, no event makes the component's own code
    throw, whatever state the page is in: every sequence of frames,
    resizes, layout changes, clicks, asset outcomes and unmounts returns
    normally, the calls into the libraries being taken to succeed.  In
    particular a click while the audio ref is still null is absorbed by
    the handler's null check and leaves the component state as it was, and
    an event that finds no scene leaves the page untouched. *)
Theorem events_never_throw (es : list Event) (p : Page) :
  (exists q, run es p = Normal q)
  /\ (audioRef_current (hero p) = None ->
      exists q, step Click p = Normal q /\ hero q = hero p)
  /\ (scene_env p = None ->
      step AnimationFrame p = Normal (take_frame_requests p)
      /\ step WindowResize p = Normal p
      /\ step Unmount p = Normal p).
Proof.
  split; [apply run_returns|]. split.
  - intros Hn. cbn [step render_button onClick].
    rewrite (toggleAudio_absent _ _ Hn). eexists. split; [reflexivity|].
    by destruct (hero p).
  - intros Hn.
    assert (Hcalls : forall cbs q, scene_env q = None ->
              foldl (fun r cb => call cb r) q cbs = q).
    { induction cbs as [|cb cbs IH]; intros q Hq; cbn [foldl]; [done|].
      assert (Hc : call cb q = q) by (unfold call; by rewrite Hq).
      rewrite Hc. by apply IH. }
    cbn [step]. rewrite !Hcalls by exact Hn. rewrite Hn. auto.
Qed.

Lemma events_never_throw_witness :
  (exists q,
     run [Click; AnimationFrame; WindowResize; Unmount; Click]
         (mkPage None None false empty_window initial_state) = Normal q)
  /\ (exists q,
        step Click (mkPage None None false empty_window initial_state)
        = Normal q
        /\ hero q = initial_state).
Proof.
  pose proof (events_never_throw
                [Click; AnimationFrame; WindowResize; Unmount; Click]
                (mkPage None None false empty_window initial_state))
    as (H1 & H2 & _).
  split; [exact H1|]. exact (H2 eq_refl).
Defined.

Lemma clicks_cons (e : Event) (es : list Event) :
  Nat.odd (clicks (e :: es)) = xorb (is_click e) (Nat.odd (clicks es)).
Proof.
  unfold clicks. cbn [List.filter]. destruct (is_click e); cbn [xorb].
  - cbn [Datatypes.length]. rewrite Nat.odd_succ, <- Nat.negb_odd.
    reflexivity.
  - reflexivity.
Qed.

Lemma step_playing (e : Event) (p q : Page) :
  is_Some (audioRef_current (hero p)) -> step e p = Normal q ->
  playing (hero q) = xorb (is_click e) (playing (hero p)).
Proof.
  intros [h Hh]. destruct e; cbn [step is_click xorb].
  - intros [= <-]. by rewrite calls_hero.
  - intros [= <-]. by rewrite calls_hero.
  - by intros [= <-].
  - cbn [render_button onClick].
    rewrite (toggleAudio_present _ _ h Hh). by intros [= <-].
  - by intros [= <-].
  - destruct (scene_env p); [destruct (cleanup_pending p)|];
      by intros [= <-].
Qed.

Lemma run_playing (es : list Event) (p : Page) :
  is_Some (audioRef_current (hero p)) ->
  exists q, run es p = Normal q
            /\ playing (hero q)
               = xorb (Nat.odd (clicks es)) (playing (hero p)).
Proof.
  revert p. induction es as [|e es IH]; intros p Hh; cbn [run].
  - exists p. split; [reflexivity|]. by destruct (playing (hero p)).
  - destruct (step_returns e p) as (p1 & Hs). rewrite Hs.
    cbn [mbind completion_bind bind].
    destruct (IH p1 (step_keeps_handle e p p1 Hh Hs)) as (q & Hr & Hq).
    exists q. split; [exact Hr|].
    rewrite Hq, (step_playing e p p1 Hh Hs), clicks_cons.
    destruct (is_click e), (Nat.odd (clicks es)), (playing (hero p));
      reflexivity.
Qed.

(** X8: the [playing] state counts clicks and nothing else.  After any
    history, with or without a canvas, [playing] is true exactly when the
    number of clicks so far is odd, and the button's label and pressed
    flag say the same; frames, resizes, the outcome of the asset's load
    and an unmount have no say in it. *)
Theorem playing_is_click_parity (c : option Canvas) (es : list Event) :
  exists p,
    mount c ≫= run es = Normal p
    /\ playing (hero p) = Nat.odd (clicks es)
    /\ label (render_button (hero p))
       = (if Nat.odd (clicks es) then "Pause audio" else "Play audio")
    /\ aria_pressed (render_button (hero p)) = Nat.odd (clicks es).
Proof.
  assert (Hm : exists p0, mount c = Normal p0
                 /\ is_Some (audioRef_current (hero p0))
                 /\ playing (hero p0) = false).
  { destruct c as [c|]; eexists; (split; [reflexivity|]); cbn; eauto. }
  destruct Hm as (p0 & -> & Hh & H0).
  destruct (run_playing es p0 Hh) as (q & Hr & Hq).
  exists q. split; [exact Hr|].
  rewrite H0, xorb_false_r in Hq.
  unfold render_button; cbn [label aria_pressed]. rewrite Hq. auto.
Qed.

(** ** The toggle and the sound *)

(** X9: once the asset is there, a click on the button as rendered keeps
    the sound and the label in step: if the sound was on exactly when
    [playing] was true, the same holds after the click, with both
    reversed. *)
Theorem click_keeps_sound_and_label_in_step (st : HeroState) (h : Howl) :
  audioRef_current st = Some h ->
  load_state h = AssetLoaded ->
  sounding h = playing st ->
  exists st' h',
    onClick (render_button st) st = Normal st'
    /\ audioRef_current st' = Some h'
    /\ load_state h' = AssetLoaded
    /\ playing st' = negb (playing st)
    /\ sounding h' = playing st'.
Proof.
  intros Hh Hl Hs. cbn [render_button onClick].
  rewrite (toggleAudio_present _ _ h Hh).
  do 2 eexists. split; [reflexivity|]. cbn [audioRef_current playing].
  split; [reflexivity|].
  destruct (playing st); cbn; rewrite ?Hl; auto.
Qed.

Lemma click_keeps_sound_and_label_in_step_witness :
  exists st' h',
    onClick (render_button loaded_state) loaded_state = Normal st'
    /\ audioRef_current st' = Some h'
    /\ load_state h' = AssetLoaded
    /\ playing st' = negb (playing loaded_state)
    /\ sounding h' = playing st'.
Proof.
  apply (click_keeps_sound_and_label_in_step loaded_state loaded_handle);
    reflexivity.
Defined.

(** X10: the toggle chooses between pausing and playing by the value of
    [playing] its closure captured, while it flips the current state.  So
    when the handler of one render is called twice, starting with sound
    and label in step and the asset there, both calls make the same
    request of the handle: [playing] is back where it was, and the sound
    is now on exactly when [playing] is false. *)
Theorem same_render_toggled_twice_desynchronises (st : HeroState)
    (h : Howl) :
  audioRef_current st = Some h ->
  load_state h = AssetLoaded ->
  sounding h = playing st ->
  exists st1 st2 h2,
    toggleAudio (playing st) st = Normal st1
    /\ toggleAudio (playing st) st1 = Normal st2
    /\ playing st2 = playing st
    /\ audioRef_current st2 = Some h2
    /\ sounding h2 = negb (playing st2).
Proof.
  intros Hh Hl Hs.
  rewrite (toggleAudio_present _ _ h Hh).
  do 3 eexists. split; [reflexivity|].
  split; [apply toggleAudio_present; reflexivity|].
  cbn [playing audioRef_current]. split; [apply negb_involutive|].
  split; [reflexivity|].
  rewrite negb_involutive.
  destruct (playing st); cbn; rewrite ?Hl; reflexivity.
Qed.

Lemma same_render_toggled_twice_desynchronises_witness :
  exists st1 st2 h2,
    toggleAudio (playing loaded_state) loaded_state = Normal st1
    /\ toggleAudio (playing loaded_state) st1 = Normal st2
    /\ playing st2 = playing loaded_state
    /\ audioRef_current st2 = Some h2
    /\ sounding h2 = negb (playing st2).
Proof.
  apply (same_render_toggled_twice_desynchronises loaded_state
           loaded_handle); reflexivity.
Defined.

(** ** The card grid for any list of records *)

Lemma descendants_Element (t : string) (k : option Z) (cn : string)
    (cs : list Node) :
  descendants (Element t k cn cs)
  = flat_map (fun c => c :: descendants c) cs.
Proof.
  induction cs as [|c cs IH]; [reflexivity|].
  cbn [flat_map app]. rewrite <- IH. reflexivity.
Qed.

Lemma card_has_class (p : Project) : has_class "card" (card p) = true.
Proof. vm_compute. reflexivity. Qed.

Lemma card_inner_has_no_card (p : Project) :
  List.filter (has_class "card") (descendants (card p)) = [].
Proof. destruct p. vm_compute. reflexivity. Qed.

Lemma filter_cards (ps : list Project) :
  List.filter (has_class "card")
    (flat_map (fun c => c :: descendants c) (card <$> ps))
  = card <$> ps.
Proof.
  induction ps as [|p ps IH]; [reflexivity|].
  cbn [fmap list_fmap flat_map app List.filter].
  rewrite card_has_class, List.filter_app, card_inner_has_no_card.
  cbn [app]. f_equal. exact IH.
Qed.

Lemma grid_frame_has_no_card (cs : list Node) :
  List.filter (has_class "card")
    [ Element "div" None "max-w-6xl mx-auto"
        [ Element "h2" None "text-3xl md:text-4xl font-bold mb-8"
            [ Text "Selected Projects" ];
          Element "div" None
            "grid grid-cols-1 md:grid-cols-2 lg:grid-cols-3 gap-8" cs ];
      Element "h2" None "text-3xl md:text-4xl font-bold mb-8"
        [ Text "Selected Projects" ];
      Text "Selected Projects";
      Element "div" None
        "grid grid-cols-1 md:grid-cols-2 lg:grid-cols-3 gap-8" cs ]
  = [].
Proof. vm_compute. reflexivity. Qed.

Lemma selector_cards (ps : list Project) :
  selector (Some (render ps)) ".card" = card <$> ps.
Proof.
  unfold selector, render. rewrite descendants_Element.
  cbn [flat_map app]. rewrite descendants_Element.
  cbn [flat_map app]. rewrite (descendants_Element "h2").
  rewrite (descendants_Element "div" None
             "grid grid-cols-1 md:grid-cols-2 lg:grid-cols-3 gap-8").
  cbn [flat_map app descendants]. rewrite !app_nil_r.
  match goal with
  | |- List.filter ?f (?a :: ?b :: ?c :: ?d :: ?rest) = _ =>
      change (List.filter f ([a; b; c; d] ++ rest) = card <$> ps)
  end.
  rewrite List.filter_app, grid_frame_has_no_card. apply filter_cards.
Qed.

(** X11: whatever records the grid is rendered from, the selector the
    reveal effect uses finds exactly their cards, one per record and in the
    records' order; nothing else in the rendered tree, inside or outside a
    card, carries the class. *)
Theorem selector_finds_one_card_per_record (ps : list Project) :
  selector (Some (render ps)) ".card" = card <$> ps
  /\ Datatypes.length (selector (Some (render ps)) ".card")
     = Datatypes.length ps.
Proof.
  split; [apply selector_cards|]. rewrite selector_cards. apply length_fmap.
Qed.

(** X12: a rendered card shows all of its record: the key, the heading,
    the paragraph and the date label give the record back, so that cards
    of different records differ, and reading the selected cards back gives
    the list the grid was rendered from. *)
Theorem cards_read_back (ps : list Project) :
  (forall p, card_record (card p) = Some p)
  /\ (forall p q, card p = card q -> p = q)
  /\ card_record <$> selector (Some (render ps)) ".card" = Some <$> ps.
Proof.
  split; [exact card_record_card|]. split.
  - intros p q H. apply (f_equal card_record) in H.
    rewrite !card_record_card in H. by injection H.
  - rewrite selector_cards, <- list_fmap_compose. apply list_fmap_ext.
    intros i p _. cbn. apply card_record_card.
Qed.

(** ** The reveal effect over the module's lifetime *)

Lemma reveal_effect_tweens (container : option Node) (g : Gsap) :
  tweens (reveal_effect container g)
  = tweens g ++ [ {| targets := selector container ".card";
                     vars := reveal_vars container |} ]
  /\ plugins (reveal_effect container g) = plugins g.
Proof. split; reflexivity. Qed.

Lemma mount_effects_cons (o : Op) (ops : list Op) :
  mount_effects (o :: ops)
  = ((if is_mount_effect o then 1 else 0) + mount_effects ops)%nat.
Proof. unfold mount_effects. cbn. by destruct (is_mount_effect o). Qed.

(** X13: the reveal effect has no teardown.  Over any sequence of renders
    and runs of the effect the tweens registered before are all kept, in
    order, and exactly one tween is added per run of the effect, each with
    the same offset, opacity, duration, stagger, ease and start; the
    registered plugins do not change. *)
Theorem tweens_accumulate (ops : list Op) (m : ModuleState) :
  exists added,
    tweens (gsap (foldl (fun s o => perform o s) m ops))
    = tweens (gsap m) ++ added
    /\ Datatypes.length added = mount_effects ops
    /\ Forall (fun t => vars t = reveal_vars (trigger (scrollTrigger (vars t))))
              added
    /\ plugins (gsap (foldl (fun s o => perform o s) m ops))
       = plugins (gsap m).
Proof.
  revert m. induction ops as [|o ops IH]; intros m; cbn [foldl].
  - exists []. rewrite app_nil_r. repeat split; auto.
  - destruct (IH (perform o m)) as (added & Ht & Hl & Hv & Hp).
    rewrite Ht, Hp, mount_effects_cons. destruct o; cbn [perform gsap].
    + exists added. repeat split; auto.
    + destruct (reveal_effect_tweens (ref_current m) (gsap m)) as (-> & ->).
      eexists (_ :: added). rewrite <- app_assoc. cbn [app].
      split; [reflexivity|]. cbn [Datatypes.length is_mount_effect].
      split; [by rewrite Hl|]. split; [|reflexivity].
      constructor; [reflexivity | exact Hv].
Qed.

(** X14: a run of the effect after a render registers a tween whose
    targets are exactly the cards of the module's records, in the records'
    order, and whose trigger is the container just rendered; this holds
    for any array the module holds, not only for six records. *)
Theorem effect_targets_rendered_cards (m : ModuleState) :
  tweens (gsap (perform MountEffect (perform Render m)))
  = tweens (gsap m)
    ++ [ {| targets := card <$> projects_array m;
            vars := reveal_vars (Some (render (projects_array m))) |} ].
Proof.
  cbn [perform gsap ref_current projects_array].
  destruct (reveal_effect_tweens (Some (render (projects_array m))) (gsap m))
    as (-> & _).
  by rewrite selector_cards.
Qed.

(** ** The backdrop letters *)

Lemma letters_lookup (i : nat) (l : Backdrop.Letter) :
  Backdrop.letters !! i = Some l ->
  (i < 20)%nat /\ l = Backdrop.letter (Z.of_nat i).
Proof.
  unfold Backdrop.letters. intros H.
  apply list_lookup_imap_Some in H as (u & Hu & ->).
  apply lookup_replicate in Hu as (_ & Hi). auto.
Qed.

(** X15: the backdrop is twenty letters keyed 0 to 19, all keys distinct.
    The rotation a letter animates to is a multiple of 8 between 0 and 48
    degrees, and letters seven places apart get the same rotation. *)
Theorem backdrop_rotation_cycles :
  Datatypes.length Backdrop.letters = 20%nat
  /\ Backdrop.key <$> Backdrop.letters = Z.of_nat <$> seq 0 20
  /\ NoDup (Backdrop.key <$> Backdrop.letters)
  /\ (forall i l, Backdrop.letters !! i = Some l ->
        l = Backdrop.letter (Z.of_nat i))
  /\ (forall i, 0 <= i ->
        0 <= Backdrop.rotate (Backdrop.letter i) <= 48
        /\ Backdrop.rotate (Backdrop.letter i) mod 8 = 0
        /\ Backdrop.rotate (Backdrop.letter (i + 7))
           = Backdrop.rotate (Backdrop.letter i)).
Proof.
  split; [reflexivity|]. split; [reflexivity|]. split.
  { change (Backdrop.key <$> Backdrop.letters) with (Z.of_nat <$> seq 0 20).
    apply (NoDup_fmap_2 Z.of_nat), NoDup_seq. }
  split; [intros i l H; by apply letters_lookup in H as (_ & ->)|].
  intros i Hi. cbn [Backdrop.letter Backdrop.rotate].
  rewrite !Z.rem_mod_nonneg by lia.
  pose proof (Z.mod_pos_bound i 7 ltac:(lia)) as Hb.
  split; [lia|]. split.
  - apply Z.mod_mul. lia.
  - f_equal. replace (i + 7) with (i + 1 * 7) by lia.
    apply Z.mod_add. lia.
Qed.

Lemma backdrop_rotation_cycles_witness :
  0 <= Backdrop.rotate (Backdrop.letter 13) <= 48
  /\ Backdrop.rotate (Backdrop.letter 13) mod 8 = 0
  /\ Backdrop.rotate (Backdrop.letter (13 + 7))
     = Backdrop.rotate (Backdrop.letter 13).
Proof.
  apply (proj2 (proj2 (proj2 (proj2 backdrop_rotation_cycles))) 13). lia.
Defined.

(** X16: the letters fade in in document order: the first without delay,
    every other one strictly later than the one before it. *)
Theorem backdrop_delays_increase :
  (forall l, Backdrop.letters !! 0%nat = Some l ->
     Backdrop.delay l = of_Z 0)
  /\ (forall i a b,
        Backdrop.letters !! i = Some a -> Backdrop.letters !! S i = Some b ->
        ltb (Backdrop.delay a) (Backdrop.delay b) = true).
Proof.
  split.
  - intros l H. apply letters_lookup in H as (_ & ->). reflexivity.
  - intros i a b Ha Hb.
    apply letters_lookup in Ha as (_ & ->).
    apply letters_lookup in Hb as (Hi & ->).
    do 19 (destruct i as [|i]; [vm_compute; reflexivity|]). lia.
Qed.

Lemma backdrop_delays_increase_witness :
  ltb (Backdrop.delay (Backdrop.letter 4))
      (Backdrop.delay (Backdrop.letter 5)) = true.
Proof.
  apply (proj2 backdrop_delays_increase 4%nat); reflexivity.
Defined.
